(** * electrumsv/gui/qt/cosigners_view.py: cosigner cards of the multi-signature
      account wizard.

    The module holds three classes: [CosignerState] (a value holder shared with
    the wizard), [CosignerCard] (a widget bound to one state object) and
    [CosignerList] (the list widget hosting the cards).  The embedding keeps

    - the [CosignerState] objects in a store indexed by reference, because a
      card and the wizard that created the state look at the same object;
    - the attributes of a card that its methods read or write: the key editor,
      the key button, the "signed by" label, and the emissions of the
      [cosigner_updated] signal, recorded in order;
    - Python exceptions as an outcome of every method, the store and the
      widgets keeping whatever was written before the exception was raised;
    - the connection [key_edit.textChanged.connect(self._event_text_changed)]:
      the editor's [clear] and [appendPlainText] deliver [textChanged]
      synchronously to the slot, so [_update_keystore] re-enters
      [_event_text_changed].  The nesting of deliveries is bounded by a
      budget ([fuel]); [Totality] shows that a budget of two is always enough.

    The title, the name editor, the copy button (its handler does nothing),
    margins, cursors, size policies, layouts and painting do not influence
    any attribute the methods read and are left out. *)

From Stdlib Require Import String ZArith List Bool Lia.
Import ListNotations.
Local Open Scope string_scope.

Set Implicit Arguments.

(** ** Python values and control flow *)

(** The exceptions the module can meet: [ValueError] is caught by
    [_event_text_changed], [AssertionError] is raised by the [assert] in
    [_event_click_set_cosigner_key]; anything else a collaborator raises is
    [OtherException]. *)
Inductive exn : Type :=
| ValueError
| AssertionError (msg : string)
| OtherException (name : string).

Definition is_ValueError (e : exn) : bool :=
  match e with ValueError => true | _ => false end.

(** Result of calling a collaborator that has no access to the card. *)
Inductive result (A : Type) : Type :=
| Ok (a : A)
| Raise (e : exn).
Arguments Ok {A} a.
Arguments Raise {A} e.

(** Outcome of running a method: normal return, a propagating exception, or
    an exhausted budget of nested signal deliveries. *)
Inductive outcome (A : Type) : Type :=
| Returned (a : A)
| Raised (e : exn)
| OutOfFuel.
Arguments Returned {A} a.
Arguments Raised {A} e.
Arguments OutOfFuel {A}.

(** State-and-exception monad: an exception keeps the state reached so far. *)
Definition M (S A : Type) : Type := S -> outcome A * S.

Definition ret {S A} (a : A) : M S A := fun s => (Returned a, s).
Definition raise {S A} (e : exn) : M S A := fun s => (Raised e, s).
Definition out_of_fuel {S A} : M S A := fun s => (OutOfFuel, s).
Definition bind {S A B} (m : M S A) (k : A -> M S B) : M S B :=
  fun s =>
    match m s with
    | (Returned a, s') => k a s'
    | (Raised e, s') => (Raised e, s')
    | (OutOfFuel, s') => (OutOfFuel, s')
    end.
Definition gets {S A} (f : S -> A) : M S A := fun s => (Returned (f s), s).
Definition modify {S} (f : S -> S) : M S unit := fun s => (Returned tt, f s).

Declare Scope py_scope.
Delimit Scope py_scope with py.
Notation "x <- m ;; k" := (bind m (fun x => k))
  (at level 100, m at next level, right associativity) : py_scope.
Notation "m ;; k" := (bind m (fun _ => k))
  (at level 100, right associativity) : py_scope.
Local Open Scope py_scope.

(** ** Collaborators *)

(** [bitcoinx]: the two classes [bip32_key_from_string] can return.  The card
    only looks at the class of the key ([isinstance]). *)
Inductive bip32_key : Type :=
| BIP32PublicKey
| BIP32PrivateKey.

(** [electrumsv.constants.KeystoreTextType]: the member this module uses. *)
Inductive KeystoreTextType : Type :=
| EXTENDED_PUBLIC_KEY.

(** [QDialog.DialogCode], the value of [QWizard.exec]. *)
Inductive DialogCode : Type :=
| Rejected
| Accepted.

(** The interface of [electrumsv.keystore.KeyStore] the card calls. *)
Class KeyStoreAPI (KeyStore : Type) : Type := {
  get_master_public_key : KeyStore -> string;
  is_watching_only : KeyStore -> bool
}.

(** The routines imported from [bitcoinx], [electrumsv.keystore] and
    [electrumsv.i18n] ([tr] is [_]). *)
Class Collaborators (KeyStore : Type) : Type := {
  bip32_key_from_string : string -> result bip32_key;
  instantiate_keystore_from_text :
    KeystoreTextType -> string -> option string -> result KeyStore;
  tr : string -> string;
  (* Qt: the row [QListWidget.addItem] picks in a list of [rows] rows when
     sorting is enabled *)
  sorted_row : forall rows : nat, nat
}.

(** What one run of the modal [AccountWizard] answers to the three calls the
    click handler makes on it. *)
Record AccountWizard (KeyStore : Type) : Type := {
  run : DialogCode;
  has_result : bool;
  get_keystore : option KeyStore
}.

(** ** Qt widgets, as far as the card uses them *)

Inductive QIcon : Type :=
| read_QIcon (icon_name : string).

Record QPlainTextEdit : Type := {
  readOnly : bool;
  plainText : string
}.

Record QToolButton : Type := {
  icon : QIcon;
  toolTip : string
}.

Record QLabel : Type := {
  text : string;
  styleSheet : string
}.

Definition newline : string := String (Ascii.ascii_of_nat 10) EmptyString.

(** ** CosignerState *)

Section Cosigners.

Context {KeyStore : Type} {KS : KeyStoreAPI KeyStore} {Env : Collaborators KeyStore}.

Record CosignerState : Type := {
  cosigner_index : Z;
  keystore : option KeyStore;
  is_local : bool
}.

(** [CosignerState(cosigner_index)]: the class attributes [keystore = None]
    and [is_local = False] are what a new instance reads. *)
Definition CosignerState_init (index : Z) : CosignerState :=
  {| cosigner_index := index; keystore := None; is_local := false |}.

Definition reset (s : CosignerState) : CosignerState :=
  {| cosigner_index := cosigner_index s; keystore := None; is_local := false |}.

Definition is_complete (s : CosignerState) : bool :=
  match keystore s with
  | Some _ => true
  | None => false
  end.

Definition set_keystore (ks : option KeyStore) (s : CosignerState) : CosignerState :=
  {| cosigner_index := cosigner_index s; keystore := ks; is_local := is_local s |}.

(** ** CosignerCard *)

(** References to [CosignerState] objects. *)
Definition ref : Type := nat.

Record CosignerCard : Type := {
  _state : ref;
  _key_edit : QPlainTextEdit;
  _cosigner_key_button : QToolButton;
  _signed_by_label : QLabel;
  cosigner_updated : list Z      (* arguments of the emissions, oldest first *)
}.

(** What a method of a card runs on: the store of state objects and the
    card itself. *)
Record World : Type := {
  heap : ref -> CosignerState;
  self : CosignerCard
}.

Definition update (h : ref -> CosignerState) (r : ref) (s : CosignerState)
  : ref -> CosignerState :=
  fun r' => if Nat.eqb r' r then s else h r'.

Definition with_self (f : CosignerCard -> CosignerCard) (w : World) : World :=
  {| heap := heap w; self := f (self w) |}.

Definition with_state (f : CosignerState -> CosignerState) (w : World) : World :=
  {| heap := update (heap w) (_state (self w)) (f (heap w (_state (self w))));
     self := self w |}.

Definition the_state (w : World) : CosignerState := heap w (_state (self w)).

Definition set_key_edit (e : QPlainTextEdit) (c : CosignerCard) : CosignerCard :=
  {| _state := _state c; _key_edit := e;
     _cosigner_key_button := _cosigner_key_button c;
     _signed_by_label := _signed_by_label c;
     cosigner_updated := cosigner_updated c |}.

Definition set_key_button (b : QToolButton) (c : CosignerCard) : CosignerCard :=
  {| _state := _state c; _key_edit := _key_edit c;
     _cosigner_key_button := b;
     _signed_by_label := _signed_by_label c;
     cosigner_updated := cosigner_updated c |}.

Definition set_label (l : QLabel) (c : CosignerCard) : CosignerCard :=
  {| _state := _state c; _key_edit := _key_edit c;
     _cosigner_key_button := _cosigner_key_button c;
     _signed_by_label := l;
     cosigner_updated := cosigner_updated c |}.

Definition record_emission (i : Z) (c : CosignerCard) : CosignerCard :=
  {| _state := _state c; _key_edit := _key_edit c;
     _cosigner_key_button := _cosigner_key_button c;
     _signed_by_label := _signed_by_label c;
     cosigner_updated := cosigner_updated c ++ [i] |}.

Local Abbreviation Py := (M World).

(** *** Widget methods.  [slot] is what is connected to [textChanged]. *)

Definition key_edit_isReadOnly : Py bool :=
  gets (fun w => readOnly (_key_edit (self w))).

Definition key_edit_toPlainText : Py string :=
  gets (fun w => plainText (_key_edit (self w))).

Definition key_edit_setReadOnly (b : bool) : Py unit :=
  modify (with_self (fun c =>
    set_key_edit {| readOnly := b; plainText := plainText (_key_edit c) |} c)).

Definition key_edit_setText (s : string) : Py unit :=
  modify (with_self (fun c =>
    set_key_edit {| readOnly := readOnly (_key_edit c); plainText := s |} c)).

(** [QPlainTextEdit.clear]: empties the document and emits [textChanged]. *)
Definition key_edit_clear (slot : Py unit) : Py unit :=
  key_edit_setText "" ;; slot.

(** [QPlainTextEdit.appendPlainText]: a new paragraph at the end of the
    document (the first one when the document is empty), then [textChanged]. *)
Definition key_edit_appendPlainText (slot : Py unit) (s : string) : Py unit :=
  old <- key_edit_toPlainText ;;
  key_edit_setText (if String.eqb old "" then s else old ++ newline ++ s) ;;
  slot.

Definition key_button_setIcon (i : QIcon) : Py unit :=
  modify (with_self (fun c =>
    set_key_button {| icon := i; toolTip := toolTip (_cosigner_key_button c) |} c)).

Definition key_button_setToolTip (s : string) : Py unit :=
  modify (with_self (fun c =>
    set_key_button {| icon := icon (_cosigner_key_button c); toolTip := s |} c)).

Definition label_setText (s : string) : Py unit :=
  modify (with_self (fun c =>
    set_label {| text := s; styleSheet := styleSheet (_signed_by_label c) |} c)).

Definition label_setStyleSheet (s : string) : Py unit :=
  modify (with_self (fun c =>
    set_label {| text := text (_signed_by_label c); styleSheet := s |} c)).

(** [self.cosigner_updated.emit(i)]. *)
Definition cosigner_updated_emit (i : Z) : Py unit :=
  modify (with_self (record_emission i)).

Definition _key_icon : QIcon := read_QIcon "icons8-key.svg".
Definition _delete_icon : QIcon := read_QIcon "icons8-delete.svg".
Definition _copy_icon : QIcon := read_QIcon "icons8-copy-to-clipboard-32.png".

(** *** Methods of the card *)

Definition _update_status_label : Py unit :=
  st <- gets the_state ;;
  if is_complete st then
    match keystore st with
    | Some ks =>
        (if is_watching_only ks
         then label_setText (tr "External party" ++ ".")
         else label_setText (tr "This account" ++ ".")) ;;
        label_setStyleSheet ""
    | None => raise (OtherException "AttributeError")
    end
  else
    label_setText (tr "Not yet specified" ++ ".") ;;
    label_setStyleSheet "QLabel { color: red; }".

(** [_update_keystore], with the slot connected to the editor made explicit. *)
Definition _update_keystore_with (slot : Py unit) (ks : option KeyStore) : Py unit :=
  match ks with
  | None =>
      modify (with_state reset) ;;
      key_edit_setReadOnly false ;;
      key_edit_clear slot ;;
      key_button_setIcon _key_icon ;;
      key_button_setToolTip (tr "Set the current key for this cosigner")
  | Some k =>
      modify (with_state (set_keystore (Some k))) ;;
      key_edit_setReadOnly true ;;
      key_edit_clear slot ;;
      key_edit_appendPlainText slot (get_master_public_key k) ;;
      key_button_setIcon _delete_icon ;;
      key_button_setToolTip (tr "Clear the current key for this cosigner")
  end ;;
  _update_status_label ;;
  st <- gets the_state ;;
  cosigner_updated_emit (cosigner_index st).

Fixpoint _event_text_changed (fuel : nat) : Py unit :=
  match fuel with
  | O => out_of_fuel
  | S fuel' =>
      ro <- key_edit_isReadOnly ;;
      if ro then ret tt else
      txt <- key_edit_toPlainText ;;
      match bip32_key_from_string txt with
      | Raise e => if is_ValueError e then ret tt else raise e
      | Ok BIP32PrivateKey => ret tt
      | Ok BIP32PublicKey =>
          match instantiate_keystore_from_text EXTENDED_PUBLIC_KEY txt None with
          | Raise e => raise e
          | Ok k => _update_keystore_with (_event_text_changed fuel') (Some k)
          end
      end
  end.

Definition _update_keystore (fuel : nat) (ks : option KeyStore) : Py unit :=
  _update_keystore_with (_event_text_changed fuel) ks.

Definition _event_click_set_cosigner_key (fuel : nat) (child_wizard : AccountWizard KeyStore)
  : Py unit :=
  st <- gets the_state ;;
  match keystore st with
  | Some _ => _update_keystore fuel None
  | None =>
      match run child_wizard with
      | Accepted =>
          if has_result child_wizard
          then _update_keystore fuel (get_keystore child_wizard)
          else raise (AssertionError "accepted result-less wizard")
      | Rejected => _update_keystore fuel None
      end
  end.

Definition _event_click_copy_key : Py unit := ret tt.

(** [CosignerCard(main_window, state)]: the widgets as the constructor leaves
    them before its last statement, which is [self._update_keystore(None)]. *)
Definition new_card (state : ref) : CosignerCard :=
  {| _state := state;
     _key_edit := {| readOnly := false; plainText := "" |};
     _cosigner_key_button := {| icon := _key_icon; toolTip := "" |};
     _signed_by_label := {| text := ""; styleSheet := "" |};
     cosigner_updated := [] |}.

Definition CosignerCard_init (fuel : nat) (state : ref) (h : ref -> CosignerState)
  : outcome unit * World :=
  _update_keystore fuel None {| heap := h; self := new_card state |}.

(** The user typing or pasting into the key editor: a read-only editor
    refuses the input, an editable one takes the text and emits
    [textChanged]. *)
Definition user_input (fuel : nat) (s : string) : Py unit :=
  ro <- key_edit_isReadOnly ;;
  if ro then ret tt else
  key_edit_setText s ;; _event_text_changed fuel.

(** ** CosignerList *)

Record CosignerList : Type := {
  sortingEnabled : bool;
  items : list CosignerCard      (* the item widgets, first row first *)
}.

(** What a method of the list runs on. *)
Record ListWorld : Type := {
  states : ref -> CosignerState;
  this : CosignerList
}.

(** [CosignerList(main_window)], after [self.setSortingEnabled(False)]. *)
Definition CosignerList_init : CosignerList :=
  {| sortingEnabled := false; items := [] |}.

(** [QListWidget.addItem] followed by [setItemWidget]: a new last row,
    unless sorting is enabled, when the widget picks the row. *)
Definition addItem (card : CosignerCard) (l : CosignerList) : CosignerList :=
  {| sortingEnabled := sortingEnabled l;
     items :=
       if sortingEnabled l
       then firstn (sorted_row (length (items l))) (items l) ++ [card]
            ++ skipn (sorted_row (length (items l))) (items l)
       else items l ++ [card] |}.

Definition add_state (fuel : nat) (state : ref) : M ListWorld CosignerCard :=
  fun lw =>
    match CosignerCard_init fuel state (states lw) with
    | (Returned _, w) =>
        (Returned (self w), {| states := heap w; this := addItem (self w) (this lw) |})
    | (Raised e, w) => (Raised e, {| states := heap w; this := this lw |})
    | (OutOfFuel, w) => (OutOfFuel, {| states := heap w; this := this lw |})
    end.

(** A sequence of calls [add_state(s)] for [s] in [sts], collecting the
    returned cards. *)
Fixpoint add_state_calls (fuel : nat) (sts : list ref) : M ListWorld (list CosignerCard) :=
  match sts with
  | [] => ret []
  | s :: rest =>
      card <- add_state fuel s ;;
      cards <- add_state_calls fuel rest ;;
      ret (card :: cards)
  end.

(** ** The two states of a card *)

Definition Empty (w : World) : Prop :=
  keystore (the_state w) = None /\ readOnly (_key_edit (self w)) = false.

Definition Bound (w : World) : Prop :=
  keystore (the_state w) <> None /\ readOnly (_key_edit (self w)) = true.

(** Text the paste handler silently ignores: it fails to parse with a format
    error, or it parses as a private key. *)
Definition ignored_text (s : string) : Prop :=
  bip32_key_from_string s = Raise ValueError \/
  bip32_key_from_string s = Ok BIP32PrivateKey.

(** ** Notions used by the statements below *)

(** A slot is quiet on a read-only editor when it returns at once and
    changes nothing. *)
Definition quiet_when_read_only (slot : Py unit) : Prop :=
  forall w, readOnly (_key_edit (self w)) = true -> slot w = (Returned tt, w).

(** A method keeps every [cosigner_index] of the store, and the card's
    reference to its state, however it ends. *)
Definition keeps_cosigner_index {A : Type} (m : Py A) : Prop :=
  forall w,
    (forall r, cosigner_index (heap (snd (m w)) r) = cosigner_index (heap w r)) /\
    _state (self (snd (m w))) = _state (self w).

(** A method does not exhaust the budget of nested deliveries. *)
Definition terminates {A : Type} (m : Py A) : Prop :=
  forall w, fst (m w) <> OutOfFuel.

(** The world a successful [_update_keystore(keystore)] leaves. *)
Definition after_bind (k : KeyStore) (w : World) : World :=
  {| heap := update (heap w) (_state (self w)) (set_keystore (Some k) (the_state w));
     self :=
       {| _state := _state (self w);
          _key_edit := {| readOnly := true; plainText := get_master_public_key k |};
          _cosigner_key_button :=
            {| icon := _delete_icon;
               toolTip := tr "Clear the current key for this cosigner" |};
          _signed_by_label :=
            {| text := if is_watching_only k
                       then tr "External party" ++ "."
                       else tr "This account" ++ ".";
               styleSheet := "" |};
          cosigner_updated := cosigner_updated (self w) ++ [cosigner_index (the_state w)]
       |} |}.

(** The world [_update_keystore(None)] leaves when the emptied editor does
    not hold a public key. *)
Definition after_reset (w : World) : World :=
  {| heap := update (heap w) (_state (self w)) (reset (the_state w));
     self :=
       {| _state := _state (self w);
          _key_edit := {| readOnly := false; plainText := "" |};
          _cosigner_key_button :=
            {| icon := _key_icon;
               toolTip := tr "Set the current key for this cosigner" |};
          _signed_by_label :=
            {| text := tr "Not yet specified" ++ ".";
               styleSheet := "QLabel { color: red; }" |};
          cosigner_updated := cosigner_updated (self w) ++ [cosigner_index (the_state w)]
       |} |}.

(** The card a constructor call leaves for the state object [state] whose
    index is [index], when the emptied editor does not hold a public key. *)
Definition fresh_card (state : ref) (index : Z) : CosignerCard :=
  {| _state := state;
     _key_edit := {| readOnly := false; plainText := "" |};
     _cosigner_key_button :=
       {| icon := _key_icon;
          toolTip := tr "Set the current key for this cosigner" |};
     _signed_by_label :=
       {| text := tr "Not yet specified" ++ ".";
          styleSheet := "QLabel { color: red; }" |};
     cosigner_updated := [index] |}.

End Cosigners.

(** * Concrete collaborators to run the model on *)

Module Sample.

Record ToyKeyStore : Type := {
  xpub : string;
  watching : bool
}.

Definition toy_api : KeyStoreAPI ToyKeyStore :=
  {| get_master_public_key := xpub; is_watching_only := watching |}.

(** A stand-in for the parser: it goes by the prefix of the text. *)
Definition parse (s : string) : result bip32_key :=
  if String.prefix "xpub" s then Ok BIP32PublicKey
  else if String.prefix "xprv" s then Ok BIP32PrivateKey
  else Raise ValueError.

Definition env : Collaborators ToyKeyStore :=
  {| bip32_key_from_string := parse;
     instantiate_keystore_from_text :=
       fun _ s _ => Ok {| xpub := s; watching := true |};
     tr := fun s => s;
     sorted_row := fun _ => 0%nat |}.

(** The same parser with a keystore factory that always fails. *)
Definition failing_env : Collaborators ToyKeyStore :=
  {| bip32_key_from_string := parse;
     instantiate_keystore_from_text :=
       fun _ _ _ => Raise (OtherException "Exception");
     tr := fun s => s;
     sorted_row := fun _ => 0%nat |}.

(** A store in which the object at reference [r] is cosigner [r]. *)
Definition store : ref -> @CosignerState ToyKeyStore :=
  fun r => CosignerState_init (Z.of_nat r).

Definition K : string := "xpub661MyMwAqRbcFtXgS5sYJABqqG9YLmC4Q1Rdap9gSE8NqtwybGhePY2gZ29ESFjqJoCu1Rupje8YtGqsefD265TMg7usUDFdp6W1EGMcet8".

Definition a_private_key : string := "xprv9s21ZrQH143K3QTDL4LXw2F7HEK3wJUD2nW2nRk4stbPy6cq3jPPqjiChkVvvNKmPGJxWUtg6LnF5kejMRNNU3TGtRBeJgk33yuGBxrMPHi".

Definition a_keystore : ToyKeyStore := {| xpub := K; watching := true |}.

(** The card for cosigner index 2, as its constructor leaves it. *)
Definition empty_world : @World ToyKeyStore :=
  {| heap := store; self := fresh_card (Env := env) 2 2 |}.

(** The same card after [K] was bound to it. *)
Definition bound_world : @World ToyKeyStore :=
  after_bind (KS := toy_api) (Env := env) a_keystore empty_world.

(** The card bound to a keystore that can sign. *)
Definition own_keystore : ToyKeyStore := {| xpub := K; watching := false |}.

Definition own_world : @World ToyKeyStore :=
  after_bind (KS := toy_api) (Env := env) own_keystore empty_world.

Definition accepted_wizard : AccountWizard ToyKeyStore :=
  {| run := Accepted; has_result := true; get_keystore := Some own_keystore |}.

Definition cancelled_wizard : AccountWizard ToyKeyStore :=
  {| run := Rejected; has_result := false; get_keystore := None |}.

Definition empty_list : @ListWorld ToyKeyStore :=
  {| states := store; this := CosignerList_init |}.

End Sample.

(** * The card under a sequence of user events *)

Section Events.

Context {KeyStore : Type} {KS : KeyStoreAPI KeyStore} {Env : Collaborators KeyStore}.

(** What the user can do to a card: edit the key field, click the key
    button (the sub-wizard, when it opens, answers as [child_wizard]), click
    the copy button. *)
Inductive Event : Type :=
| Paste (s : string)
| ClickKey (child_wizard : AccountWizard KeyStore)
| ClickCopy.

(** The slot the event reaches. *)
Definition handle (fuel : nat) (e : Event) : M (@World KeyStore) unit :=
  match e with
  | Paste s => user_input fuel s
  | ClickKey child_wizard => _event_click_set_cosigner_key fuel child_wizard
  | ClickCopy => _event_click_copy_key
  end.

(** The world after the events, one after the other; an exception ends the
    slot that raised it and the card is left as that slot left it. *)
Fixpoint after_events (fuel : nat) (evs : list Event) (w : World) : World :=
  match evs with
  | [] => w
  | e :: rest => after_events fuel rest (snd (handle fuel e w))
  end.

(** The label agrees with the state object. *)
Definition label_in_sync (w : World) : Prop :=
  _signed_by_label (self w) =
  match keystore (the_state w) with
  | Some k =>
      {| text := if is_watching_only k
                 then tr "External party" ++ "."
                 else tr "This account" ++ ".";
         styleSheet := "" |}
  | None =>
      {| text := tr "Not yet specified" ++ ".";
         styleSheet := "QLabel { color: red; }" |}
  end.

(** Editor, button and label all agree with the state object. *)
Definition consistent (w : World) : Prop :=
  label_in_sync w /\
  match keystore (the_state w) with
  | Some k =>
      _key_edit (self w) =
        {| readOnly := true; plainText := get_master_public_key k |} /\
      _cosigner_key_button (self w) =
        {| icon := _delete_icon;
           toolTip := tr "Clear the current key for this cosigner" |}
  | None =>
      readOnly (_key_edit (self w)) = false /\
      _cosigner_key_button (self w) =
        {| icon := _key_icon;
           toolTip := tr "Set the current key for this cosigner" |}
  end.

(** A method respects a relation between worlds when the world it leaves,
    however it ends, is related to the world it started from. *)
Definition respects (R : @World KeyStore -> @World KeyStore -> Prop) {A : Type}
    (m : M (@World KeyStore) A) : Prop :=
  forall w, R w (snd (m w)).

(** The card's own state object apart, the store is the same. *)
Definition same_other_states (w w' : @World KeyStore) : Prop :=
  _state (self w') = _state (self w) /\
  forall r, r <> _state (self w) -> heap w' r = heap w r.

(** No state object has [is_local] set that did not have it before. *)
Definition is_local_not_set (w w' : @World KeyStore) : Prop :=
  _state (self w') = _state (self w) /\
  forall r, is_local (heap w' r) = true -> is_local (heap w r) = true.


End Events.

Module Sample2.

(** A parser that fails with something else than a format error. *)
Definition crashing_env : Collaborators Sample.ToyKeyStore :=
  {| bip32_key_from_string := fun _ => Raise (OtherException "TypeError");
     instantiate_keystore_from_text :=
       fun _ s _ => Ok {| Sample.xpub := s; Sample.watching := true |};
     tr := fun s => s;
     sorted_row := fun _ => 0%nat |}.

Definition resultless_wizard : AccountWizard Sample.ToyKeyStore :=
  {| run := Accepted; has_result := false; get_keystore := None |}.

(** A session on the card of cosigner 2: a failed attempt, a key, a change
    of mind, a cancelled wizard, an accepted one. *)
Definition session : list (@Event Sample.ToyKeyStore) :=
  [ Paste "xpu"; Paste Sample.K; Paste "ignored"; ClickCopy;
    ClickKey Sample.cancelled_wizard; ClickKey Sample.cancelled_wizard;
    ClickKey Sample.accepted_wizard ].

(** A new list over a store in which cosigner 2 already has a keystore. *)
Definition used_list : @ListWorld Sample.ToyKeyStore :=
  {| states := heap Sample.bound_world; this := CosignerList_init |}.

End Sample2.

(** * Properties *)

Unset Implicit Arguments.

Section Properties.

Context {KeyStore : Type} {KS : KeyStoreAPI KeyStore} {Env : Collaborators KeyStore}.

Local Abbreviation Py := (M (@World KeyStore)).

Ltac unfold_py :=
  cbv [bind ret raise out_of_fuel gets modify
       key_edit_isReadOnly key_edit_toPlainText key_edit_setReadOnly
       key_edit_setText key_edit_clear key_edit_appendPlainText
       key_button_setIcon key_button_setToolTip label_setText
       label_setStyleSheet cosigner_updated_emit
       with_self with_state the_state
       set_key_edit set_key_button set_label record_emission].

(** ** The store *)

Lemma update_same (h : ref -> @CosignerState KeyStore) r s : update h r s r = s.
Proof. unfold update. now rewrite Nat.eqb_refl. Qed.

Lemma update_other (h : ref -> @CosignerState KeyStore) r r' s :
  r' <> r -> update h r s r' = h r'.
Proof.
  intros Hne. unfold update.
  destruct (Nat.eqb_spec r' r) as [Heq | _]; [contradiction | reflexivity].
Qed.

(** ** The status label *)

Lemma _update_status_label_runs (w : World) :
  _update_status_label w =
  (Returned tt,
   with_self (set_label
     match keystore (the_state w) with
     | Some ks =>
         {| text := if is_watching_only ks
                    then tr "External party" ++ "."
                    else tr "This account" ++ ".";
            styleSheet := "" |}
     | None =>
         {| text := tr "Not yet specified" ++ ".";
            styleSheet := "QLabel { color: red; }" |}
     end) w).
Proof.
  unfold _update_status_label, is_complete. unfold_py.
  destruct (keystore (heap w (_state (self w)))) as [ks | ]; [ | reflexivity].
  destruct (is_watching_only ks); reflexivity.
Qed.

(** ** Re-entrant deliveries of [textChanged] *)

Lemma _event_text_changed_read_only (n : nat) :
  quiet_when_read_only (_event_text_changed (S n)).
Proof.
  intros w Hro. cbn [_event_text_changed]. unfold_py. now rewrite Hro.
Qed.

Lemma _update_keystore_with_Some (slot : Py unit) (k : KeyStore) (w : World) :
  quiet_when_read_only slot ->
  _update_keystore_with slot (Some k) w = (Returned tt, after_bind k w).
Proof.
  intros Hq. unfold _update_keystore_with. unfold_py. cbn.
  rewrite Hq by reflexivity. cbn.
  rewrite Hq by reflexivity. cbn.
  rewrite !update_same. unfold after_bind, is_complete. unfold_py. cbn.
  destruct (is_watching_only k); cbn; rewrite ?update_same; reflexivity.
Qed.

Lemma _event_text_changed_ignored (n : nat) (w : World) :
  readOnly (_key_edit (self w)) = false ->
  ignored_text (plainText (_key_edit (self w))) ->
  _event_text_changed (S n) w = (Returned tt, w).
Proof.
  intros Hro Hnot. cbn [_event_text_changed]. unfold_py. rewrite Hro.
  destruct Hnot as [Hp | Hp]; rewrite Hp; reflexivity.
Qed.

Lemma _update_keystore_None (n : nat) (w : World) :
  ignored_text "" ->
  _update_keystore (S n) None w = (Returned tt, after_reset w).
Proof.
  intros Hnot. unfold _update_keystore, _update_keystore_with. unfold_py. cbn -[_event_text_changed].
  rewrite _event_text_changed_ignored by (cbn; auto).
  unfold _update_status_label, after_reset, is_complete. unfold_py. cbn.
  rewrite !update_same. cbn. rewrite ?update_same. reflexivity.
Qed.

Lemma _update_keystore_Some (n : nat) (k : KeyStore) (w : World) :
  _update_keystore (S n) (Some k) w = (Returned tt, after_bind k w).
Proof.
  apply _update_keystore_with_Some, _event_text_changed_read_only.
Qed.

Lemma _event_text_changed_step (n : nat) (w : World) :
  _event_text_changed (S n) w =
  if readOnly (_key_edit (self w)) then (Returned tt, w) else
  match bip32_key_from_string (plainText (_key_edit (self w))) with
  | Raise e => if is_ValueError e then (Returned tt, w) else (Raised e, w)
  | Ok BIP32PrivateKey => (Returned tt, w)
  | Ok BIP32PublicKey =>
      match instantiate_keystore_from_text EXTENDED_PUBLIC_KEY
              (plainText (_key_edit (self w))) None with
      | Raise e => (Raised e, w)
      | Ok k => _update_keystore n (Some k) w
      end
  end.
Proof.
  cbn [_event_text_changed]. unfold_py.
  destruct (readOnly (_key_edit (self w))); [reflexivity | ].
  destruct (bip32_key_from_string _) as [[ | ] | e]; try reflexivity.
  - destruct (instantiate_keystore_from_text _ _ _); reflexivity.
  - destruct (is_ValueError e); reflexivity.
Qed.

(** ** Totality: two nested deliveries are all a call can need *)

Lemma _event_text_changed_fuel (n : nat) (w : World) :
  _event_text_changed (S (S n)) w = _event_text_changed 2 w.
Proof.
  rewrite !_event_text_changed_step.
  destruct (readOnly _); [reflexivity | ].
  destruct (bip32_key_from_string _) as [[ | ] | e]; [ | reflexivity | reflexivity].
  destruct (instantiate_keystore_from_text _ _ _) as [k | e]; [ | reflexivity].
  now rewrite !_update_keystore_Some.
Qed.

Lemma _event_text_changed_terminates (n : nat) (w : World) :
  fst (_event_text_changed (S (S n)) w) <> OutOfFuel.
Proof.
  rewrite _event_text_changed_step.
  destruct (readOnly _); [discriminate | ].
  destruct (bip32_key_from_string _) as [[ | ] | e]; try discriminate.
  - destruct (instantiate_keystore_from_text _ _ _); [ | discriminate].
    rewrite _update_keystore_Some. discriminate.
  - destruct (is_ValueError e); discriminate.
Qed.

Lemma _update_keystore_with_ext (slot1 slot2 : Py unit) :
  (forall w, slot1 w = slot2 w) ->
  forall ks w, _update_keystore_with slot1 ks w = _update_keystore_with slot2 ks w.
Proof.
  intros Hext [k | ] w; unfold _update_keystore_with; unfold_py; cbn.
  - rewrite Hext. destruct (slot2 _) as [[[] | e | ] w1]; try reflexivity.
    cbn. now rewrite Hext.
  - now rewrite Hext.
Qed.

Lemma _update_keystore_fuel (n : nat) ks (w : World) :
  _update_keystore (S (S n)) ks w = _update_keystore 2 ks w.
Proof.
  apply _update_keystore_with_ext. intros w'. apply _event_text_changed_fuel.
Qed.

Lemma terminates_ret {A} (a : A) : @terminates KeyStore A (ret a).
Proof. intros w. discriminate. Qed.

Lemma terminates_raise {A} (e : exn) : @terminates KeyStore A (raise e).
Proof. intros w. discriminate. Qed.

Lemma terminates_gets {A} (f : @World KeyStore -> A) : terminates (gets f).
Proof. intros w. discriminate. Qed.

Lemma terminates_modify (f : @World KeyStore -> World) : terminates (modify f).
Proof. intros w. discriminate. Qed.

Lemma terminates_bind {A B} (m : Py A) (k : A -> Py B) :
  terminates m -> (forall a, terminates (k a)) -> terminates (bind m k).
Proof.
  intros Hm Hk w. unfold bind. specialize (Hm w).
  destruct (m w) as [[a | e | ] w1]; cbn in *;
    [apply Hk | discriminate | contradiction].
Qed.

Lemma terminates_if {A} (b : bool) (m1 m2 : Py A) :
  terminates m1 -> terminates m2 -> terminates (if b then m1 else m2).
Proof. now destruct b. Qed.

Create HintDb terminates.
#[local] Hint Resolve terminates_ret terminates_raise terminates_gets
  terminates_modify terminates_bind terminates_if : terminates.

Ltac terminates_widgets :=
  cbv [key_edit_isReadOnly key_edit_toPlainText key_edit_setReadOnly
       key_edit_setText key_edit_clear key_edit_appendPlainText
       key_button_setIcon key_button_setToolTip label_setText
       label_setStyleSheet cosigner_updated_emit];
  auto 12 with terminates.

Lemma _update_status_label_terminates : terminates _update_status_label.
Proof.
  intros w. rewrite _update_status_label_runs. discriminate.
Qed.

Lemma _update_keystore_with_terminates (slot : Py unit) ks :
  terminates slot -> terminates (_update_keystore_with slot ks).
Proof.
  intros Hs. pose proof _update_status_label_terminates as Hl.
  unfold _update_keystore_with. destruct ks; terminates_widgets.
Qed.

Lemma _event_text_changed_total (n : nat) : terminates (_event_text_changed (S (S n))).
Proof. intros w. apply _event_text_changed_terminates. Qed.

Lemma _update_keystore_terminates (n : nat) ks :
  terminates (_update_keystore (S (S n)) ks).
Proof.
  apply _update_keystore_with_terminates, _event_text_changed_total.
Qed.

Lemma _event_click_set_cosigner_key_terminates (n : nat) wizard :
  terminates (_event_click_set_cosigner_key (S (S n)) wizard).
Proof.
  pose proof (_update_keystore_terminates n) as Hu.
  unfold _event_click_set_cosigner_key.
  apply terminates_bind; [auto with terminates | ]. intros st.
  destruct (keystore st); [apply Hu | ].
  destruct (run wizard); [apply Hu | ].
  apply terminates_if; [apply Hu | auto with terminates].
Qed.

Lemma user_input_terminates (n : nat) (s : string) :
  terminates (user_input (S (S n)) s).
Proof.
  pose proof (_event_text_changed_total n) as Hh.
  unfold user_input. terminates_widgets.
Qed.

Lemma _event_click_set_cosigner_key_fuel (n : nat) wizard (w : World) :
  _event_click_set_cosigner_key (S (S n)) wizard w =
  _event_click_set_cosigner_key 2 wizard w.
Proof.
  unfold _event_click_set_cosigner_key, bind, gets.
  destruct (keystore (the_state w)); [apply _update_keystore_fuel | ].
  destruct (run wizard); [apply _update_keystore_fuel | ].
  destruct (has_result wizard); [apply _update_keystore_fuel | reflexivity].
Qed.

Lemma user_input_fuel (n : nat) (s : string) (w : World) :
  user_input (S (S n)) s w = user_input 2 s w.
Proof.
  unfold user_input, bind, key_edit_isReadOnly, gets.
  destruct (readOnly (_key_edit (self w))); [reflexivity | ].
  unfold key_edit_setText, modify. apply _event_text_changed_fuel.
Qed.

(** ** [cosigner_index] is read-only *)

Lemma keeps_ret {A} (a : A) : @keeps_cosigner_index KeyStore A (ret a).
Proof. intros w. now split. Qed.

Lemma keeps_raise {A} (e : exn) : @keeps_cosigner_index KeyStore A (raise e).
Proof. intros w. now split. Qed.

Lemma keeps_out_of_fuel {A} : @keeps_cosigner_index KeyStore A out_of_fuel.
Proof. intros w. now split. Qed.

Lemma keeps_gets {A} (f : @World KeyStore -> A) : keeps_cosigner_index (gets f).
Proof. intros w. now split. Qed.

Lemma keeps_with_self (f : CosignerCard -> CosignerCard) :
  (forall c, _state (f c) = _state c) ->
  @keeps_cosigner_index KeyStore unit (modify (with_self f)).
Proof. intros Hf w. split; [reflexivity | apply Hf]. Qed.

Lemma keeps_with_state (f : @CosignerState KeyStore -> CosignerState) :
  (forall s, cosigner_index (f s) = cosigner_index s) ->
  keeps_cosigner_index (modify (with_state f)).
Proof.
  intros Hf w. split; [ | reflexivity]. intros r. cbn.
  destruct (Nat.eq_dec r (_state (self w))) as [-> | Hne].
  - rewrite update_same. apply Hf.
  - now rewrite update_other.
Qed.

Lemma keeps_bind {A B} (m : Py A) (k : A -> Py B) :
  keeps_cosigner_index m -> (forall a, keeps_cosigner_index (k a)) ->
  keeps_cosigner_index (bind m k).
Proof.
  intros Hm Hk w. unfold bind. specialize (Hm w).
  destruct (m w) as [[a | e | ] w1]; cbn in Hm; try exact Hm.
  destruct Hm as [Hidx Hst]. destruct (Hk a w1) as [Hidx' Hst'].
  split; [intros r; now rewrite Hidx' | congruence].
Qed.

Lemma keeps_if {A} (b : bool) (m1 m2 : Py A) :
  keeps_cosigner_index m1 -> keeps_cosigner_index m2 ->
  keeps_cosigner_index (if b then m1 else m2).
Proof. now destruct b. Qed.

Create HintDb keeps.
#[local] Hint Resolve keeps_ret keeps_raise keeps_out_of_fuel keeps_gets
  keeps_with_self keeps_with_state keeps_bind keeps_if : keeps.

Ltac keeps_widgets :=
  cbv [key_edit_isReadOnly key_edit_toPlainText key_edit_setReadOnly
       key_edit_setText key_edit_clear key_edit_appendPlainText
       key_button_setIcon key_button_setToolTip label_setText
       label_setStyleSheet cosigner_updated_emit];
  auto 12 with keeps.

Lemma _update_status_label_keeps : keeps_cosigner_index _update_status_label.
Proof.
  unfold _update_status_label. apply keeps_bind; [auto with keeps | ].
  intros st. destruct (is_complete st); [ | keeps_widgets].
  destruct (keystore st) as [ks | ]; keeps_widgets.
Qed.

Lemma _update_keystore_with_keeps (slot : Py unit) ks :
  keeps_cosigner_index slot -> keeps_cosigner_index (_update_keystore_with slot ks).
Proof.
  intros Hs. pose proof _update_status_label_keeps as Hl.
  unfold _update_keystore_with. destruct ks; keeps_widgets.
Qed.

Lemma _event_text_changed_keeps (fuel : nat) :
  keeps_cosigner_index (_event_text_changed fuel).
Proof.
  induction fuel as [ | n IH]; cbn [_event_text_changed]; [auto with keeps | ].
  apply keeps_bind; [keeps_widgets | ]. intros ro.
  apply keeps_if; [auto with keeps | ].
  apply keeps_bind; [keeps_widgets | ]. intros txt.
  destruct (bip32_key_from_string txt) as [[ | ] | e]; auto with keeps.
  destruct (instantiate_keystore_from_text _ _ _) as [k | e]; auto with keeps.
  now apply _update_keystore_with_keeps.
Qed.

Lemma _update_keystore_keeps (fuel : nat) ks :
  keeps_cosigner_index (_update_keystore fuel ks).
Proof. apply _update_keystore_with_keeps, _event_text_changed_keeps. Qed.

Lemma _event_click_set_cosigner_key_keeps (fuel : nat) wizard :
  keeps_cosigner_index (_event_click_set_cosigner_key fuel wizard).
Proof.
  unfold _event_click_set_cosigner_key.
  apply keeps_bind; [auto with keeps | ]. intros st.
  destruct (keystore st); [apply _update_keystore_keeps | ].
  destruct (run wizard); [apply _update_keystore_keeps | ].
  apply keeps_if; [apply _update_keystore_keeps | auto with keeps].
Qed.

Lemma user_input_keeps (fuel : nat) (s : string) :
  keeps_cosigner_index (user_input fuel s).
Proof.
  pose proof (_event_text_changed_keeps fuel) as Hh.
  unfold user_input. keeps_widgets.
Qed.

(** ** The card as a two-state machine *)

Lemma user_input_editable (fuel : nat) (s : string) (w : World) :
  readOnly (_key_edit (self w)) = false ->
  user_input fuel s w =
  _event_text_changed fuel
    (with_self (set_key_edit {| readOnly := false; plainText := s |}) w).
Proof.
  intros Hro. unfold user_input. unfold_py. rewrite Hro. cbn.
  rewrite Hro. reflexivity.
Qed.

(** C1.  Pasting a text that parses as an extended public key into an Empty
    card, the keystore being instantiated from it, binds the card: the method
    returns, the state's keystore is that keystore, the editor is read-only
    and shows the keystore's master public key, and [cosigner_updated] was
    emitted exactly once more, with the card's cosigner index. *)
Theorem paste_public_key_binds (n : nat) (s : string) (k : KeyStore) (w : World) :
  Empty w ->
  bip32_key_from_string s = Ok BIP32PublicKey ->
  instantiate_keystore_from_text EXTENDED_PUBLIC_KEY s None = Ok k ->
  exists w',
    user_input (S (S n)) s w = (Returned tt, w') /\
    Bound w' /\
    keystore (the_state w') = Some k /\
    plainText (_key_edit (self w')) = get_master_public_key k /\
    cosigner_updated (self w') =
      (cosigner_updated (self w) ++ [cosigner_index (the_state w)])%list /\
    cosigner_index (the_state w') = cosigner_index (the_state w) /\
    icon (_cosigner_key_button (self w')) = _delete_icon /\
    text (_signed_by_label (self w')) =
      (if is_watching_only k then tr "External party" ++ "."
       else tr "This account" ++ ".").
Proof.
  intros [_ Hro] Hparse Hinst.
  rewrite (user_input_editable _ _ _ Hro), _event_text_changed_step.
  unfold with_self, set_key_edit. cbn [self _key_edit readOnly plainText].
  rewrite Hparse, Hinst, _update_keystore_Some.
  eexists; split; [reflexivity | ].
  unfold Bound, after_bind, the_state; cbn. rewrite !update_same; cbn.
  repeat split; try reflexivity. discriminate.
Qed.

(** C2.  Pasting a text that fails to parse with a format error, or that
    parses as an extended private key, into an Empty card returns normally
    and changes nothing but the text of the editor: the store is the same,
    the card is still Empty, no signal was emitted, and label and button are
    as before. *)
Theorem paste_rejected_text_is_ignored (n : nat) (s : string) (w : World) :
  Empty w ->
  ignored_text s ->
  exists w',
    user_input (S n) s w = (Returned tt, w') /\
    heap w' = heap w /\
    Empty w' /\
    cosigner_updated (self w') = cosigner_updated (self w) /\
    plainText (_key_edit (self w')) = s /\
    _signed_by_label (self w') = _signed_by_label (self w) /\
    _cosigner_key_button (self w') = _cosigner_key_button (self w).
Proof.
  intros [Hks Hro] Hnot.
  rewrite (user_input_editable _ _ _ Hro).
  rewrite _event_text_changed_ignored by (cbn; auto).
  eexists; split; [reflexivity | ].
  unfold Empty, the_state in *; cbn. repeat split; auto.
Qed.

(** C3.  Clicking the key button of a Bound card (the empty text not being a
    public key) empties it: the state object is reset (no keystore,
    [is_local] false), the editor is editable and empty, and
    [cosigner_updated] was emitted exactly once more, with the card's
    cosigner index.  The sub-wizard is not consulted. *)
Theorem click_on_bound_card_clears
    (n : nat) (wizard : AccountWizard KeyStore) (w : World) :
  Bound w ->
  ignored_text "" ->
  exists w',
    _event_click_set_cosigner_key (S n) wizard w = (Returned tt, w') /\
    Empty w' /\
    the_state w' = reset (the_state w) /\
    keystore (the_state w') = None /\
    is_local (the_state w') = false /\
    readOnly (_key_edit (self w')) = false /\
    plainText (_key_edit (self w')) = "" /\
    cosigner_updated (self w') =
      (cosigner_updated (self w) ++ [cosigner_index (the_state w)])%list /\
    icon (_cosigner_key_button (self w')) = _key_icon /\
    _signed_by_label (self w') =
      {| text := tr "Not yet specified" ++ "."; styleSheet := "QLabel { color: red; }" |}.
Proof.
  intros [Hks _] Hnot. unfold _event_click_set_cosigner_key.
  unfold bind at 1, gets at 1.
  destruct (keystore (the_state w)) as [k | ]; [ | contradiction].
  rewrite _update_keystore_None by assumption.
  eexists; split; [reflexivity | ].
  unfold Empty, after_reset, the_state; cbn. rewrite !update_same.
  repeat split; reflexivity.
Qed.

(** C4, as the code has it.  A format error ([ValueError]) raised by the
    parser is caught: the paste returns normally and the card stays Empty
    with nothing emitted.  A failure of the keystore factory after the text
    parsed as a public key is not caught: the paste ends with that exception,
    and the card is still Empty with nothing emitted. *)
Theorem paste_failures (n : nat) (s : string) (w : World) :
  Empty w ->
  (bip32_key_from_string s = Raise ValueError ->
   exists w',
     user_input (S n) s w = (Returned tt, w') /\
     Empty w' /\ heap w' = heap w /\
     cosigner_updated (self w') = cosigner_updated (self w)) /\
  (forall e,
   bip32_key_from_string s = Ok BIP32PublicKey ->
   instantiate_keystore_from_text EXTENDED_PUBLIC_KEY s None = Raise e ->
   exists w',
     user_input (S n) s w = (Raised e, w') /\
     Empty w' /\ heap w' = heap w /\
     cosigner_updated (self w') = cosigner_updated (self w)).
Proof.
  intros [Hks Hro]. split.
  - intros Hparse.
    rewrite (user_input_editable _ _ _ Hro), _event_text_changed_step.
    unfold with_self, set_key_edit. cbn [self _key_edit readOnly plainText].
    rewrite Hparse. cbn [is_ValueError].
    eexists; split; [reflexivity | ]. now repeat split.
  - intros e Hparse Hinst.
    rewrite (user_input_editable _ _ _ Hro), _event_text_changed_step.
    unfold with_self, set_key_edit. cbn [self _key_edit readOnly plainText].
    rewrite Hparse, Hinst.
    eexists; split; [reflexivity | ]. now repeat split.
Qed.

(** Any other exception of the parser propagates as well. *)
Lemma paste_parser_failure_propagates (n : nat) (s : string) (e : exn) (w : World) :
  readOnly (_key_edit (self w)) = false ->
  bip32_key_from_string s = Raise e ->
  is_ValueError e = false ->
  fst (user_input (S n) s w) = Raised e.
Proof.
  intros Hro Hparse He.
  rewrite (user_input_editable _ _ _ Hro), _event_text_changed_step.
  unfold with_self, set_key_edit. cbn [self _key_edit readOnly plainText].
  now rewrite Hparse, He.
Qed.

(** C5.  [is_complete()] holds exactly when [keystore] is not [None]; it is
    false for a newly constructed state and after [reset()], and true once
    [_update_keystore] has bound a keystore. *)
Theorem is_complete_iff_keystore :
  (forall s : @CosignerState KeyStore, is_complete s = true <-> keystore s <> None) /\
  (forall i : Z, is_complete (@CosignerState_init KeyStore i) = false) /\
  (forall s : @CosignerState KeyStore, is_complete (reset s) = false) /\
  (forall (n : nat) (k : KeyStore) (w : World),
     fst (_update_keystore (S n) (Some k) w) = Returned tt /\
     is_complete (the_state (snd (_update_keystore (S n) (Some k) w))) = true).
Proof.
  repeat split.
  - unfold is_complete. destruct (keystore s); [discriminate | discriminate].
  - unfold is_complete. destruct (keystore s); [reflexivity | contradiction].
  - now rewrite _update_keystore_Some.
  - rewrite _update_keystore_Some. unfold after_bind, the_state, is_complete; cbn.
    now rewrite update_same.
Qed.

(** C6.  Clicking the key button of an Empty card opens the sub-wizard; when
    its run is not accepted (the empty text not being a public key) the
    handler returns, the card is Empty as before, the state object is reset
    (which leaves it as it was when [is_local] was false), and
    [cosigner_updated] was still emitted exactly once more, with the card's
    cosigner index. *)
Theorem cancelled_wizard_resets_and_notifies
    (n : nat) (wizard : AccountWizard KeyStore) (w : World) :
  Empty w ->
  run wizard = Rejected ->
  ignored_text "" ->
  exists w',
    _event_click_set_cosigner_key (S n) wizard w = (Returned tt, w') /\
    Empty w' /\
    the_state w' = reset (the_state w) /\
    keystore (the_state w') = keystore (the_state w) /\
    cosigner_index (the_state w') = cosigner_index (the_state w) /\
    (is_local (the_state w) = false -> the_state w' = the_state w) /\
    plainText (_key_edit (self w')) = "" /\
    cosigner_updated (self w') =
      (cosigner_updated (self w) ++ [cosigner_index (the_state w)])%list.
Proof.
  intros [Hks _] Hrun Hnot. unfold _event_click_set_cosigner_key.
  unfold bind at 1, gets at 1. rewrite Hks, Hrun.
  rewrite _update_keystore_None by assumption.
  eexists; split; [reflexivity | ].
  unfold Empty, after_reset, the_state in *; cbn. rewrite !update_same.
  cbn. repeat split; try reflexivity.
  intros Hlocal. destruct (heap w (_state (self w))) as [i ks l].
  cbn in *. now subst.
Qed.

(** The other way into Bound: an accepted sub-wizard that has a result. *)
Lemma accepted_wizard_binds (n : nat) (wizard : AccountWizard KeyStore) (k : KeyStore)
    (w : World) :
  keystore (the_state w) = None ->
  run wizard = Accepted ->
  has_result wizard = true ->
  get_keystore wizard = Some k ->
  _event_click_set_cosigner_key (S n) wizard w = (Returned tt, after_bind k w).
Proof.
  intros Hks Hrun Hres Hget. unfold _event_click_set_cosigner_key.
  unfold bind at 1, gets at 1. rewrite Hks, Hrun, Hres, Hget.
  apply _update_keystore_Some.
Qed.

(** An accepted sub-wizard without a result trips the assertion. *)
Lemma accepted_wizard_without_result (fuel : nat) (wizard : AccountWizard KeyStore)
    (w : World) :
  keystore (the_state w) = None ->
  run wizard = Accepted ->
  has_result wizard = false ->
  _event_click_set_cosigner_key fuel wizard w =
  (Raised (AssertionError "accepted result-less wizard"), w).
Proof.
  intros Hks Hrun Hres. unfold _event_click_set_cosigner_key.
  unfold bind at 1, gets at 1. now rewrite Hks, Hrun, Hres.
Qed.

(** C7.  [_update_status_label] always returns, writes nothing but the
    label, and the label it leaves is determined by the state object alone:
    not complete gives [_("Not yet specified") + "."] in red; complete with a
    watching-only keystore gives [_("External party") + "."], complete with
    any other keystore [_("This account") + "."], both with an empty style
    sheet. *)
Theorem status_label_by_state :
  (forall w : World,
     fst (_update_status_label w) = Returned tt /\
     heap (snd (_update_status_label w)) = heap w /\
     self (snd (_update_status_label w)) =
       set_label (_signed_by_label (self (snd (_update_status_label w)))) (self w)) /\
  (forall w : World,
     is_complete (the_state w) = false ->
     _signed_by_label (self (snd (_update_status_label w))) =
     {| text := tr "Not yet specified" ++ "."; styleSheet := "QLabel { color: red; }" |}) /\
  (forall (w : World) (ks : KeyStore),
     is_complete (the_state w) = true ->
     keystore (the_state w) = Some ks ->
     is_watching_only ks = true ->
     _signed_by_label (self (snd (_update_status_label w))) =
     {| text := tr "External party" ++ "."; styleSheet := "" |}) /\
  (forall (w : World) (ks : KeyStore),
     is_complete (the_state w) = true ->
     keystore (the_state w) = Some ks ->
     is_watching_only ks = false ->
     _signed_by_label (self (snd (_update_status_label w))) =
     {| text := tr "This account" ++ "."; styleSheet := "" |}) /\
  (forall w1 w2 : World,
     the_state w1 = the_state w2 ->
     _signed_by_label (self (snd (_update_status_label w1))) =
     _signed_by_label (self (snd (_update_status_label w2)))).
Proof.
  repeat apply conj.
  - intros w. rewrite _update_status_label_runs. now repeat split.
  - intros w Hc. rewrite _update_status_label_runs. unfold is_complete in Hc. cbn.
    destruct (keystore (the_state w)); [discriminate | reflexivity].
  - intros w ks _ Hks Hw. rewrite _update_status_label_runs. cbn.
    now rewrite Hks, Hw.
  - intros w ks _ Hks Hw. rewrite _update_status_label_runs. cbn.
    now rewrite Hks, Hw.
  - intros w1 w2 Heq. rewrite !_update_status_label_runs. cbn. now rewrite Heq.
Qed.

(** ** Construction and the list *)

Lemma CosignerCard_init_runs (n : nat) (state : ref) (h : ref -> CosignerState) :
  ignored_text "" ->
  CosignerCard_init (S n) state h =
  (Returned tt,
   {| heap := update h state (reset (h state));
      self := fresh_card state (cosigner_index (h state)) |}).
Proof.
  intros Hnot. unfold CosignerCard_init. now rewrite _update_keystore_None.
Qed.

Lemma add_state_runs (n : nat) (state : ref) (lw : ListWorld) :
  ignored_text "" ->
  add_state (S n) state lw =
  (Returned (fresh_card state (cosigner_index (states lw state))),
   {| states := update (states lw) state (reset (states lw state));
      this := addItem (fresh_card state (cosigner_index (states lw state))) (this lw) |}).
Proof.
  intros Hnot. unfold add_state. now rewrite CosignerCard_init_runs.
Qed.

Lemma addItem_unsorted (card : CosignerCard) (l : CosignerList) :
  sortingEnabled l = false ->
  sortingEnabled (addItem card l) = false /\
  items (addItem card l) = (items l ++ [card])%list.
Proof. intros Hs. unfold addItem; cbn. now rewrite Hs. Qed.

Lemma update_reset_index (h : ref -> @CosignerState KeyStore) (r r' : ref) :
  cosigner_index (update h r (reset (h r)) r') = cosigner_index (h r').
Proof.
  destruct (Nat.eq_dec r' r) as [-> | Hne].
  - now rewrite update_same.
  - now rewrite update_other.
Qed.

(** C8.  [reset()] clears [keystore] and [is_local] and keeps
    [cosigner_index]; and whatever method of the state, the card or the list
    runs, with whatever budget and however it ends, every state object of
    the store keeps its [cosigner_index] and the card keeps its state
    object. *)
Theorem cosigner_index_is_never_modified :
  (forall s : @CosignerState KeyStore,
     keystore (reset s) = None /\ is_local (reset s) = false /\
     cosigner_index (reset s) = cosigner_index s) /\
  (forall fuel ks, keeps_cosigner_index (_update_keystore fuel ks)) /\
  (forall fuel, keeps_cosigner_index (_event_text_changed fuel)) /\
  (forall fuel wizard, keeps_cosigner_index (_event_click_set_cosigner_key fuel wizard)) /\
  keeps_cosigner_index _update_status_label /\
  @keeps_cosigner_index KeyStore unit _event_click_copy_key /\
  (forall fuel s, keeps_cosigner_index (user_input fuel s)) /\
  (forall fuel state h r,
     cosigner_index (heap (snd (CosignerCard_init fuel state h)) r) = cosigner_index (h r)) /\
  (forall fuel state lw r,
     cosigner_index (states (snd (add_state fuel state lw)) r) =
     cosigner_index (states lw r)).
Proof.
  repeat apply conj.
  - intros s. now repeat split.
  - apply _update_keystore_keeps.
  - apply _event_text_changed_keeps.
  - apply _event_click_set_cosigner_key_keeps.
  - apply _update_status_label_keeps.
  - apply keeps_ret.
  - apply user_input_keeps.
  - intros fuel state h r. unfold CosignerCard_init.
    apply (_update_keystore_keeps fuel None {| heap := h; self := new_card state |}).
  - intros fuel state lw r. unfold add_state.
    pose proof (_update_keystore_keeps fuel None
                  {| heap := states lw; self := new_card state |}) as [Hidx _].
    unfold CosignerCard_init.
    destruct (_update_keystore fuel None _) as [[[] | e | ] w1]; apply Hidx.
Qed.

(** C9.  On a list with sorting disabled, as its constructor leaves it, any
    sequence of [add_state] calls on the states [sts] (the empty text not
    being a public key) returns one card per call and raises nothing; the
    list holds its former rows followed by exactly these cards in the order
    of the calls, the i-th new card being bound to the i-th state; each card
    is the fresh card of its state's index, whatever keystores the state
    objects held; and sorting stays disabled. *)
Theorem add_state_keeps_insertion_order (n : nat) (sts : list ref) (lw : ListWorld) :
  ignored_text "" ->
  sortingEnabled (this lw) = false ->
  exists cards lw',
    add_state_calls (S n) sts lw = (Returned cards, lw') /\
    items (this lw') = (items (this lw) ++ cards)%list /\
    length cards = length sts /\
    map _state cards = sts /\
    cards = map (fun r => fresh_card r (cosigner_index (states lw r))) sts /\
    sortingEnabled (this lw') = false /\
    sortingEnabled CosignerList_init = false /\
    items CosignerList_init = [].
Proof.
  intros Hnot. revert lw.
  induction sts as [ | r rest IH]; intros lw Hsorting.
  - exists [], lw. cbn. rewrite app_nil_r. now repeat split.
  - cbn [add_state_calls]. unfold bind. rewrite add_state_runs by assumption.
    cbv beta iota.
    destruct (addItem_unsorted (fresh_card r (cosigner_index (states lw r))) _ Hsorting)
      as [Hflag Hrows].
    match goal with |- context [add_state_calls _ rest ?x] =>
      destruct (IH x Hflag)
        as (cards & lw' & Hrun & Hitems & Hlen & Hst & Hcards & Hsort & _)
    end.
    rewrite Hrun.
    eexists _, lw'. split; [reflexivity | ].
    cbn [this states] in Hitems, Hcards. rewrite Hrows in Hitems.
    repeat split.
    + rewrite Hitems, <- app_assoc. reflexivity.
    + cbn. now rewrite Hlen.
    + cbn. now rewrite Hst.
    + rewrite Hcards. cbn. f_equal. apply map_ext. intros r'.
      now rewrite update_reset_index.
    + exact Hsort.
Qed.

(** C10.  Constructing a card for a state object (the empty text not being a
    public key) returns with that object reset, whatever keystore it held,
    every other state object untouched, and exactly one emission of
    [cosigner_updated], carrying the object's cosigner index; [add_state]
    does the same and hands out that card, which is then a row of the
    list. *)
Theorem constructor_resets_state_and_notifies
    (n : nat) (state : ref) (lw : ListWorld) :
  ignored_text "" ->
  (exists w',
     CosignerCard_init (S n) state (states lw) = (Returned tt, w') /\
     _state (self w') = state /\
     heap w' state = reset (states lw state) /\
     keystore (heap w' state) = None /\
     is_local (heap w' state) = false /\
     (forall r, r <> state -> heap w' r = states lw r) /\
     cosigner_updated (self w') = [cosigner_index (states lw state)]) /\
  (exists card lw',
     add_state (S n) state lw = (Returned card, lw') /\
     _state card = state /\
     states lw' state = reset (states lw state) /\
     (forall r, r <> state -> states lw' r = states lw r) /\
     cosigner_updated card = [cosigner_index (states lw state)] /\
     In card (items (this lw'))).
Proof.
  intros Hnot. split.
  - rewrite CosignerCard_init_runs by assumption.
    eexists; split; [reflexivity | ]. cbn. rewrite update_same.
    repeat split. intros r Hne. now apply update_other.
  - rewrite add_state_runs by assumption.
    eexists _, _; split; [reflexivity | ]. cbn. rewrite update_same.
    repeat split; [intros r Hne; now apply update_other | ].
    destruct (sortingEnabled (this lw)); rewrite ?in_app_iff; cbn; auto.
Qed.

End Properties.

(** * The model at work *)

(** The scenarios of the specification, on the card of cosigner index 2. *)

Example scenario_paste_public_key :
  user_input (KS := Sample.toy_api) (Env := Sample.env) 2 Sample.K Sample.empty_world
  = (Returned tt, Sample.bound_world) /\
  text (_signed_by_label (self Sample.bound_world)) = "External party." /\
  plainText (_key_edit (self Sample.bound_world)) = Sample.K /\
  cosigner_updated (self Sample.bound_world) = [2%Z; 2%Z].
Proof. repeat split. Qed.

Example scenario_click_on_bound_card :
  let w' := snd (_event_click_set_cosigner_key (KS := Sample.toy_api) (Env := Sample.env)
                   2 Sample.cancelled_wizard Sample.bound_world) in
  keystore (the_state w') = None /\
  _key_edit (self w') = {| readOnly := false; plainText := "" |} /\
  _signed_by_label (self w') =
    {| text := "Not yet specified."; styleSheet := "QLabel { color: red; }" |} /\
  cosigner_updated (self w') = [2%Z; 2%Z; 2%Z].
Proof. repeat split. Qed.

Lemma paste_public_key_binds_witness :
  exists w',
    user_input (KS := Sample.toy_api) (Env := Sample.env) 2 Sample.K Sample.empty_world
    = (Returned tt, w') /\
    Bound w' /\
    keystore (the_state w') = Some Sample.a_keystore /\
    plainText (_key_edit (self w')) = Sample.K /\
    cosigner_updated (self w') = [2%Z; 2%Z] /\
    cosigner_index (the_state w') = 2%Z /\
    icon (_cosigner_key_button (self w')) = _delete_icon /\
    text (_signed_by_label (self w')) = "External party.".
Proof.
  apply (paste_public_key_binds (KS := Sample.toy_api) (Env := Sample.env)
           0 Sample.K Sample.a_keystore Sample.empty_world);
    [split; reflexivity | reflexivity | reflexivity].
Defined.

Lemma paste_rejected_text_is_ignored_witness :
  (exists w',
     user_input (KS := Sample.toy_api) (Env := Sample.env) 1 "not a key" Sample.empty_world
     = (Returned tt, w') /\
     Empty w' /\ cosigner_updated (self w') = [2%Z]) /\
  (exists w',
     user_input (KS := Sample.toy_api) (Env := Sample.env) 1 Sample.a_private_key
       Sample.empty_world
     = (Returned tt, w') /\
     Empty w' /\ cosigner_updated (self w') = [2%Z]).
Proof.
  split.
  - destruct (paste_rejected_text_is_ignored (KS := Sample.toy_api) (Env := Sample.env)
                0 "not a key" Sample.empty_world)
      as (w' & Hrun & _ & Hempty & Hlog & _);
      [split; reflexivity | left; reflexivity | ].
    exists w'. auto.
  - destruct (paste_rejected_text_is_ignored (KS := Sample.toy_api) (Env := Sample.env)
                0 Sample.a_private_key Sample.empty_world)
      as (w' & Hrun & _ & Hempty & Hlog & _);
      [split; reflexivity | right; reflexivity | ].
    exists w'. auto.
Defined.

Lemma click_on_bound_card_clears_witness :
  exists w',
    _event_click_set_cosigner_key (KS := Sample.toy_api) (Env := Sample.env)
      1 Sample.cancelled_wizard Sample.bound_world = (Returned tt, w') /\
    Empty w' /\
    plainText (_key_edit (self w')) = "" /\
    cosigner_updated (self w') = [2%Z; 2%Z; 2%Z].
Proof.
  destruct (click_on_bound_card_clears (KS := Sample.toy_api) (Env := Sample.env)
              0 Sample.cancelled_wizard Sample.bound_world)
    as (w' & Hrun & Hempty & _ & _ & _ & _ & Htext & Hlog & _);
    [split; [discriminate | reflexivity] | left; reflexivity | ].
  exists w'. auto.
Defined.

(** C4, as the specification has it, fails: with a keystore factory that
    raises, pasting a text that parses as a public key into an Empty card
    ends with the factory's exception reaching the caller. *)
Lemma instantiation_failure_propagates :
  Empty Sample.empty_world /\
  bip32_key_from_string (Collaborators := Sample.failing_env) Sample.K
    = Ok BIP32PublicKey /\
  instantiate_keystore_from_text (Collaborators := Sample.failing_env)
    EXTENDED_PUBLIC_KEY Sample.K None = Raise (OtherException "Exception") /\
  fst (user_input (KS := Sample.toy_api) (Env := Sample.failing_env)
         2 Sample.K Sample.empty_world) = Raised (OtherException "Exception").
Proof. repeat split. Qed.

Lemma paste_failures_witness :
  (exists w',
     user_input (KS := Sample.toy_api) (Env := Sample.failing_env) 1 "xpu" Sample.empty_world
     = (Returned tt, w') /\ Empty w') /\
  (exists w',
     user_input (KS := Sample.toy_api) (Env := Sample.failing_env) 1 Sample.K
       Sample.empty_world
     = (Raised (OtherException "Exception"), w') /\
     Empty w' /\ cosigner_updated (self w') = [2%Z]).
Proof.
  destruct (paste_failures (KS := Sample.toy_api) (Env := Sample.failing_env)
              0 "xpu" Sample.empty_world) as [Hcaught _]; [split; reflexivity | ].
  destruct (paste_failures (KS := Sample.toy_api) (Env := Sample.failing_env)
              0 Sample.K Sample.empty_world) as [_ Hraised]; [split; reflexivity | ].
  split.
  - destruct Hcaught as (w' & Hrun & Hempty & _); [reflexivity | ].
    exists w'. auto.
  - destruct (Hraised (OtherException "Exception")) as (w' & Hrun & Hempty & _ & Hlog);
      [reflexivity | reflexivity | ].
    exists w'. auto.
Defined.

Lemma cancelled_wizard_resets_and_notifies_witness :
  exists w',
    _event_click_set_cosigner_key (KS := Sample.toy_api) (Env := Sample.env)
      1 Sample.cancelled_wizard Sample.empty_world = (Returned tt, w') /\
    Empty w' /\
    the_state w' = the_state Sample.empty_world /\
    cosigner_updated (self w') = [2%Z; 2%Z].
Proof.
  destruct (cancelled_wizard_resets_and_notifies (KS := Sample.toy_api) (Env := Sample.env)
              0 Sample.cancelled_wizard Sample.empty_world)
    as (w' & Hrun & Hempty & _ & _ & _ & Hst & _ & Hlog);
    [split; reflexivity | reflexivity | left; reflexivity | ].
  specialize (Hst eq_refl).
  exists w'. auto.
Defined.

Lemma status_label_by_state_witness :
  text (_signed_by_label (self (snd
    (_update_status_label (KS := Sample.toy_api) (Env := Sample.env) Sample.empty_world))))
  = "Not yet specified." /\
  text (_signed_by_label (self (snd
    (_update_status_label (KS := Sample.toy_api) (Env := Sample.env) Sample.bound_world))))
  = "External party." /\
  text (_signed_by_label (self (snd
    (_update_status_label (KS := Sample.toy_api) (Env := Sample.env) Sample.own_world))))
  = "This account.".
Proof.
  destruct (status_label_by_state (KS := Sample.toy_api) (Env := Sample.env))
    as (_ & Hnot & Hext & Hown & _).
  split; [ | split].
  - now rewrite (Hnot Sample.empty_world).
  - now rewrite (Hext Sample.bound_world Sample.a_keystore).
  - now rewrite (Hown Sample.own_world Sample.own_keystore).
Defined.

Lemma add_state_keeps_insertion_order_witness :
  exists cards lw',
    add_state_calls (KS := Sample.toy_api) (Env := Sample.env)
      1 [0; 1; 2]%nat Sample.empty_list = (Returned cards, lw') /\
    items (this lw') = cards /\
    length cards = 3%nat /\
    map _state cards = [0; 1; 2]%nat.
Proof.
  destruct (add_state_keeps_insertion_order (KS := Sample.toy_api) (Env := Sample.env)
              0 [0; 1; 2]%nat Sample.empty_list)
    as (cards & lw' & Hrun & Hitems & Hlen & Hst & _);
    [left; reflexivity | reflexivity | ].
  exists cards, lw'. auto.
Defined.

Lemma constructor_resets_state_and_notifies_witness :
  exists w',
    CosignerCard_init (KS := Sample.toy_api) (Env := Sample.env)
      1 2%nat (heap Sample.bound_world) = (Returned tt, w') /\
    keystore (heap Sample.bound_world 2%nat) = Some Sample.a_keystore /\
    keystore (heap w' 2%nat) = None /\
    cosigner_updated (self w') = [2%Z].
Proof.
  destruct (constructor_resets_state_and_notifies (KS := Sample.toy_api) (Env := Sample.env)
              0 2%nat {| states := heap Sample.bound_world; this := CosignerList_init |})
    as [(w' & Hrun & _ & _ & Hks & _ & _ & Hlog) _]; [left; reflexivity | ].
  exists w'. cbn in Hrun, Hks, Hlog. auto.
Defined.

(** * Further properties of the card *)

Section MoreProperties.

Context {KeyStore : Type} {KS : KeyStoreAPI KeyStore} {Env : Collaborators KeyStore}.

Local Abbreviation Py := (M (@World KeyStore)).

(** ** Relations every method respects *)

Section Respects.

Variable R : @World KeyStore -> @World KeyStore -> Prop.
Hypothesis R_refl : forall w, R w w.
Hypothesis R_trans : forall w1 w2 w3, R w1 w2 -> R w2 w3 -> R w1 w3.
Hypothesis R_edit :
  forall (g : CosignerCard -> QPlainTextEdit) w,
    R w (with_self (fun c => set_key_edit (g c) c) w).
Hypothesis R_button :
  forall (g : CosignerCard -> QToolButton) w,
    R w (with_self (fun c => set_key_button (g c) c) w).
Hypothesis R_label :
  forall (g : CosignerCard -> QLabel) w,
    R w (with_self (fun c => set_label (g c) c) w).
Hypothesis R_reset : forall w, R w (with_state reset w).
Hypothesis R_keystore : forall k w, R w (with_state (set_keystore (Some k)) w).
Hypothesis R_emit :
  forall w, R w (with_self (record_emission (cosigner_index (the_state w))) w).

Lemma respects_ret {A} (a : A) : respects R (ret a : Py A).
Proof. intros w. apply R_refl. Qed.

Lemma respects_raise {A} (e : exn) : respects R (raise e : Py A).
Proof. intros w. apply R_refl. Qed.

Lemma respects_out_of_fuel {A} : respects R (out_of_fuel : Py A).
Proof. intros w. apply R_refl. Qed.

Lemma respects_gets {A} (f : @World KeyStore -> A) : respects R (gets f).
Proof. intros w. apply R_refl. Qed.

Lemma respects_modify (f : @World KeyStore -> World) :
  (forall w, R w (f w)) -> respects R (modify f).
Proof. intros Hf w. apply Hf. Qed.

Lemma respects_bind {A B} (m : Py A) (k : A -> Py B) :
  respects R m -> (forall a, respects R (k a)) -> respects R (bind m k).
Proof.
  intros Hm Hk w. unfold bind. specialize (Hm w).
  destruct (m w) as [[a | e | ] w1]; cbn in Hm; try exact Hm.
  eapply R_trans; [exact Hm | apply Hk].
Qed.

Lemma respects_if {A} (b : bool) (m1 m2 : Py A) :
  respects R m1 -> respects R m2 -> respects R (if b then m1 else m2).
Proof. now destruct b. Qed.

Lemma respects_emit :
  respects R (st <- gets the_state ;; cosigner_updated_emit (cosigner_index st))%py.
Proof. intros w. apply R_emit. Qed.

Lemma respects_key_edit_setReadOnly b : respects R (key_edit_setReadOnly b).
Proof. apply respects_modify. intros w. apply R_edit. Qed.

Lemma respects_key_edit_setText s : respects R (key_edit_setText s).
Proof. apply respects_modify. intros w. apply R_edit. Qed.

Lemma respects_key_button_setIcon i : respects R (key_button_setIcon i).
Proof. apply respects_modify. intros w. apply R_button. Qed.

Lemma respects_key_button_setToolTip s : respects R (key_button_setToolTip s).
Proof. apply respects_modify. intros w. apply R_button. Qed.

Lemma respects_label_setText s : respects R (label_setText s).
Proof. apply respects_modify. intros w. apply R_label. Qed.

Lemma respects_label_setStyleSheet s : respects R (label_setStyleSheet s).
Proof. apply respects_modify. intros w. apply R_label. Qed.

Lemma respects_key_edit_clear slot : respects R slot -> respects R (key_edit_clear slot).
Proof.
  intros Hs. apply respects_bind; [apply respects_key_edit_setText | now intros].
Qed.

Lemma respects_key_edit_appendPlainText slot s :
  respects R slot -> respects R (key_edit_appendPlainText slot s).
Proof.
  intros Hs. apply respects_bind; [apply respects_gets | intros old].
  apply respects_bind; [apply respects_key_edit_setText | now intros].
Qed.

Lemma respects__update_status_label : respects R _update_status_label.
Proof.
  apply respects_bind; [apply respects_gets | intros st].
  apply respects_if.
  - destruct (keystore st) as [ks | ]; [ | apply respects_raise].
    apply respects_bind; [ | intros; apply respects_label_setStyleSheet].
    apply respects_if; apply respects_label_setText.
  - apply respects_bind; [apply respects_label_setText | ].
    intros; apply respects_label_setStyleSheet.
Qed.

Lemma respects__update_keystore_with slot ks :
  respects R slot -> respects R (_update_keystore_with slot ks).
Proof.
  intros Hs. unfold _update_keystore_with.
  apply respects_bind;
    [ | intros; apply respects_bind;
        [apply respects__update_status_label | intros; apply respects_emit] ].
  destruct ks as [k | ].
  - apply respects_bind; [apply respects_modify, R_keystore | intros].
    apply respects_bind; [apply respects_key_edit_setReadOnly | intros].
    apply respects_bind; [now apply respects_key_edit_clear | intros].
    apply respects_bind; [now apply respects_key_edit_appendPlainText | intros].
    apply respects_bind; [apply respects_key_button_setIcon | intros].
    apply respects_key_button_setToolTip.
  - apply respects_bind; [apply respects_modify, R_reset | intros].
    apply respects_bind; [apply respects_key_edit_setReadOnly | intros].
    apply respects_bind; [now apply respects_key_edit_clear | intros].
    apply respects_bind; [apply respects_key_button_setIcon | intros].
    apply respects_key_button_setToolTip.
Qed.

Lemma respects__event_text_changed fuel : respects R (_event_text_changed fuel).
Proof.
  induction fuel as [ | n IH]; cbn [_event_text_changed]; [apply respects_out_of_fuel | ].
  apply respects_bind; [apply respects_gets | intros ro].
  apply respects_if; [apply respects_ret | ].
  apply respects_bind; [apply respects_gets | intros txt].
  destruct (bip32_key_from_string txt) as [[ | ] | e].
  - destruct (instantiate_keystore_from_text _ _ _) as [k | e];
      [now apply respects__update_keystore_with | apply respects_raise].
  - apply respects_ret.
  - apply respects_if; [apply respects_ret | apply respects_raise].
Qed.

Lemma respects__update_keystore fuel ks : respects R (_update_keystore fuel ks).
Proof. apply respects__update_keystore_with, respects__event_text_changed. Qed.

Lemma respects_handle fuel (e : Event) : respects R (handle fuel e).
Proof.
  destruct e as [s | wizard | ]; cbn [handle].
  - apply respects_bind; [apply respects_gets | intros ro].
    apply respects_if; [apply respects_ret | ].
    apply respects_bind; [apply respects_key_edit_setText | intros].
    apply respects__event_text_changed.
  - apply respects_bind; [apply respects_gets | intros st].
    destruct (keystore st); [apply respects__update_keystore | ].
    destruct (run wizard); [apply respects__update_keystore | ].
    apply respects_if; [apply respects__update_keystore | apply respects_raise].
  - apply respects_ret.
Qed.

Lemma respects_after_events fuel (evs : list Event) (w : World) :
  R w (after_events fuel evs w).
Proof.
  revert w. induction evs as [ | e rest IH]; intros w; cbn [after_events].
  - apply R_refl.
  - eapply R_trans; [apply (respects_handle fuel e) | apply IH].
Qed.

Lemma respects_session fuel (state : ref) h (evs : list Event) :
  R {| heap := h; self := new_card state |}
    (after_events fuel evs (snd (CosignerCard_init fuel state h))).
Proof.
  eapply R_trans; [ | apply respects_after_events].
  apply (respects__update_keystore fuel None).
Qed.

End Respects.

(** ** The three relations *)

Lemma same_other_states_session fuel (state : ref) h (evs : list Event) :
  same_other_states {| heap := h; self := new_card state |}
    (after_events fuel evs (snd (CosignerCard_init fuel state h))).
Proof.
  apply respects_session; unfold same_other_states.
  - intros w. now split.
  - intros w1 w2 w3 [Hs1 Hh1] [Hs2 Hh2]. split; [congruence | ].
    intros r Hne. rewrite Hh2, Hh1; congruence.
  - intros g w. now split.
  - intros g w. now split.
  - intros g w. now split.
  - intros w. split; [reflexivity | ]. intros r Hne. cbn. now apply update_other.
  - intros k w. split; [reflexivity | ]. intros r Hne. cbn. now apply update_other.
  - intros w. now split.
Qed.

Lemma is_local_not_set_session fuel (state : ref) h (evs : list Event) :
  is_local_not_set {| heap := h; self := new_card state |}
    (after_events fuel evs (snd (CosignerCard_init fuel state h))).
Proof.
  apply respects_session; unfold is_local_not_set.
  - intros w. now split.
  - intros w1 w2 w3 [Hs1 Hh1] [Hs2 Hh2]. split; [congruence | auto].
  - intros g w. now split.
  - intros g w. now split.
  - intros g w. now split.
  - intros w. split; [reflexivity | ]. intros r. cbn.
    destruct (Nat.eq_dec r (_state (self w))) as [-> | Hne].
    + rewrite update_same. discriminate.
    + now rewrite update_other.
  - intros k w. split; [reflexivity | ]. intros r. cbn.
    destruct (Nat.eq_dec r (_state (self w))) as [-> | Hne].
    + now rewrite update_same.
    + now rewrite update_other.
  - intros w. now split.
Qed.


(** X1.  A card constructed for a state object, after any events and with
    any budget, has changed no other state object of the store. *)
Theorem card_touches_only_its_own_state
    (fuel : nat) (state : ref) (h : ref -> CosignerState) (evs : list Event) (r : ref) :
  r <> state ->
  heap (after_events fuel evs (snd (CosignerCard_init fuel state h))) r = h r.
Proof.
  intros Hne. destruct (same_other_states_session fuel state h evs) as [_ Hh].
  now apply Hh.
Qed.

(** X2.  No method ever sets [is_local]: after construction and any events,
    a state object whose [is_local] was false still has it false. *)
Theorem is_local_is_never_set
    (fuel : nat) (state : ref) (h : ref -> CosignerState) (evs : list Event) (r : ref) :
  is_local (h r) = false ->
  is_local (heap (after_events fuel evs (snd (CosignerCard_init fuel state h))) r) = false.
Proof.
  intros Hfalse. destruct (is_local_not_set_session fuel state h evs) as [_ Hh].
  destruct (is_local (heap _ r)) eqn:Hl; [ | reflexivity].
  apply Hh in Hl. cbn in Hl. congruence.
Qed.


(** ** What one event can do *)

Lemma user_input_cases (n : nat) (s : string) (w : World) :
  user_input (S (S n)) s w = (Returned tt, w) \/
  (readOnly (_key_edit (self w)) = false /\
   exists o,
     user_input (S (S n)) s w =
     (o, with_self (set_key_edit {| readOnly := false; plainText := s |}) w)) \/
  (readOnly (_key_edit (self w)) = false /\
   exists k,
     user_input (S (S n)) s w =
     (Returned tt,
      after_bind k (with_self (set_key_edit {| readOnly := false; plainText := s |}) w))).
Proof.
  destruct (readOnly (_key_edit (self w))) eqn:Hro.
  - left. unfold user_input, bind, key_edit_isReadOnly, gets. now rewrite Hro.
  - right. rewrite (user_input_editable _ _ _ Hro), _event_text_changed_step.
    remember (with_self (set_key_edit {| readOnly := false; plainText := s |}) w)
      as w1 eqn:Hw1.
    assert (H1 : readOnly (_key_edit (self w1)) = false) by now subst.
    assert (H2 : plainText (_key_edit (self w1)) = s) by now subst.
    rewrite H1, H2.
    destruct (bip32_key_from_string s) as [[ | ] | e].
    + destruct (instantiate_keystore_from_text _ _ _) as [k | e].
      * right. split; [reflexivity | ]. exists k. apply _update_keystore_Some.
      * left. split; [reflexivity | ]. now eexists.
    + left. split; [reflexivity | ]. now eexists.
    + left. split; [reflexivity | ]. destruct (is_ValueError e); now eexists.
Qed.

Lemma _event_click_set_cosigner_key_step
    (fuel : nat) (wizard : AccountWizard KeyStore) (w : World) :
  _event_click_set_cosigner_key fuel wizard w =
  match keystore (the_state w) with
  | Some _ => _update_keystore fuel None w
  | None =>
      match run wizard with
      | Accepted =>
          if has_result wizard
          then _update_keystore fuel (get_keystore wizard) w
          else (Raised (AssertionError "accepted result-less wizard"), w)
      | Rejected => _update_keystore fuel None w
      end
  end.
Proof.
  unfold _event_click_set_cosigner_key, bind, gets.
  destruct (keystore (the_state w)); [reflexivity | ].
  destruct (run wizard); [reflexivity | ].
  destruct (has_result wizard); reflexivity.
Qed.

Lemma click_cases (n : nat) (wizard : AccountWizard KeyStore) (w : World) :
  ignored_text "" ->
  (exists e, _event_click_set_cosigner_key (S n) wizard w = (Raised e, w)) \/
  _event_click_set_cosigner_key (S n) wizard w = (Returned tt, after_reset w) \/
  (exists k, _event_click_set_cosigner_key (S n) wizard w = (Returned tt, after_bind k w)).
Proof.
  intros Hnot. rewrite !_event_click_set_cosigner_key_step.
  destruct (keystore (the_state w)) as [k0 | ].
  - right; left. now apply _update_keystore_None.
  - destruct (run wizard).
    + right; left. now apply _update_keystore_None.
    + destruct (has_result wizard).
      * destruct (get_keystore wizard) as [k | ].
        -- right; right. exists k. apply _update_keystore_Some.
        -- right; left. now apply _update_keystore_None.
      * left. now eexists.
Qed.

Lemma consistent_after_bind (k : KeyStore) (w : World) : consistent (after_bind k w).
Proof.
  unfold consistent, label_in_sync, after_bind, the_state. cbn.
  rewrite update_same. cbn. now repeat split.
Qed.

Lemma consistent_after_reset (w : World) : consistent (after_reset w).
Proof.
  unfold consistent, label_in_sync, after_reset, the_state. cbn.
  rewrite update_same. cbn. now repeat split.
Qed.

Lemma consistent_with_text (s : string) (w : World) :
  consistent w ->
  readOnly (_key_edit (self w)) = false ->
  consistent (with_self (set_key_edit {| readOnly := false; plainText := s |}) w).
Proof.
  unfold consistent, label_in_sync, the_state. cbn. intros [Hl Hc] Hro.
  destruct (keystore (heap w (_state (self w)))) as [k | ].
  - destruct Hc as [Hedit _]. rewrite Hedit in Hro. discriminate.
  - now repeat split.
Qed.

Lemma consistent_handle (n : nat) (e : Event) (w : World) :
  ignored_text "" -> consistent w -> consistent (snd (handle (S (S n)) e w)).
Proof.
  intros Hnot Hc. destruct e as [s | wizard | ]; cbn [handle].
  - destruct (user_input_cases n s w) as [Hrun | [[Hro [o Hrun]] | [Hro [k Hrun]]]];
      rewrite Hrun; cbn [snd].
    + exact Hc.
    + now apply consistent_with_text.
    + apply consistent_after_bind.
  - destruct (click_cases (S n) wizard w Hnot) as [[e Hrun] | [Hrun | [k Hrun]]];
      rewrite Hrun; cbn [snd].
    + exact Hc.
    + apply consistent_after_reset.
    + apply consistent_after_bind.
  - exact Hc.
Qed.

(** X4.  The empty text not being a public key, a card is consistent from
    its construction on and after any events: label, key button and editor
    agree with the state object (no keystore: editable editor, "set" button,
    red "Not yet specified"; a keystore: read-only editor showing its master
    public key, "clear" button, the label of its kind), also after slots
    that raised. *)
Theorem reachable_cards_are_consistent
    (n : nat) (state : ref) (h : ref -> CosignerState) (evs : list Event) :
  ignored_text "" ->
  consistent (after_events (S (S n)) evs (snd (CosignerCard_init (S (S n)) state h))).
Proof.
  intros Hnot. rewrite CosignerCard_init_runs by assumption. cbn [snd].
  assert (Hstart : consistent
            {| heap := update h state (reset (h state));
               self := fresh_card state (cosigner_index (h state)) |})
    by apply (consistent_after_reset {| heap := h; self := new_card state |}).
  revert Hstart. generalize {| heap := update h state (reset (h state));
                              self := fresh_card state (cosigner_index (h state)) |}.
  induction evs as [ | e rest IH]; intros w Hc; cbn [after_events]; [exact Hc | ].
  apply IH. now apply consistent_handle.
Qed.

(** X5.  The empty text not being a public key, one event either emits
    nothing and leaves every state object as it was, or emits
    [cosigner_updated] exactly once, with the card's cosigner index: no
    change of a state object goes unannounced, and no event announces
    twice. *)
Theorem state_changes_are_announced (n : nat) (e : Event) (w : World) :
  ignored_text "" ->
  (heap (snd (handle (S (S n)) e w)) = heap w /\
   cosigner_updated (self (snd (handle (S (S n)) e w))) = cosigner_updated (self w)) \/
  cosigner_updated (self (snd (handle (S (S n)) e w))) =
    (cosigner_updated (self w) ++ [cosigner_index (the_state w)])%list.
Proof.
  intros Hnot. destruct e as [s | wizard | ]; cbn [handle].
  - destruct (user_input_cases n s w) as [Hrun | [[Hro [o Hrun]] | [Hro [k Hrun]]]];
      rewrite Hrun; cbn [snd]; [now left | now left | now right].
  - destruct (click_cases (S n) wizard w Hnot) as [[e Hrun] | [Hrun | [k Hrun]]];
      rewrite Hrun; cbn [snd]; [now left | now right | now right].
  - now left.
Qed.

(** ** Composed and edge behaviour *)

(** X6.  Pasting a public key into an Empty card and then clicking the key
    button (the empty text not being a public key) undoes the paste: both
    slots return, the state object is reset, editor, button and label are
    those of a fresh card, and the two steps emitted [cosigner_updated]
    twice, each time with the card's cosigner index. *)
Theorem paste_then_click_round_trip
    (n m : nat) (s : string) (k : KeyStore) (wizard : AccountWizard KeyStore) (w : World) :
  Empty w ->
  bip32_key_from_string s = Ok BIP32PublicKey ->
  instantiate_keystore_from_text EXTENDED_PUBLIC_KEY s None = Ok k ->
  ignored_text "" ->
  exists w',
    (user_input (S (S n)) s ;; _event_click_set_cosigner_key (S m) wizard)%py w
    = (Returned tt, w') /\
    the_state w' = reset (the_state w) /\
    (forall r, r <> _state (self w) -> heap w' r = heap w r) /\
    self w' =
      {| _state := _state (self w);
         _key_edit := {| readOnly := false; plainText := "" |};
         _cosigner_key_button :=
           {| icon := _key_icon; toolTip := tr "Set the current key for this cosigner" |};
         _signed_by_label :=
           {| text := tr "Not yet specified" ++ "."; styleSheet := "QLabel { color: red; }" |};
         cosigner_updated :=
           cosigner_updated (self w)
           ++ [cosigner_index (the_state w); cosigner_index (the_state w)] |}.
Proof.
  intros [_ Hro] Hparse Hinst Hnot. unfold bind at 1.
  rewrite (user_input_editable _ _ _ Hro), _event_text_changed_step.
  remember (with_self (set_key_edit {| readOnly := false; plainText := s |}) w)
    as w1 eqn:Hw1.
  assert (H1 : readOnly (_key_edit (self w1)) = false) by now subst.
  assert (H2 : plainText (_key_edit (self w1)) = s) by now subst.
  rewrite H1, H2, Hparse, Hinst, _update_keystore_Some.
  rewrite _event_click_set_cosigner_key_step.
  assert (Hks : keystore (the_state (after_bind k w1)) = Some k).
  { unfold after_bind, the_state. cbn. now rewrite update_same. }
  rewrite Hks, _update_keystore_None by assumption.
  eexists; split; [reflexivity | ]. subst w1.
  unfold after_reset, after_bind, the_state. cbn. rewrite !update_same. cbn.
  rewrite <- app_assoc. repeat split.
  intros r Hne. now rewrite !update_other.
Qed.

(** X7.  On an Empty card, a sub-wizard that is accepted and has a keystore
    as its result binds the card to that keystore: the slot returns, the
    card is Bound, the editor shows the keystore's master public key, the
    label names its kind, and [cosigner_updated] was emitted exactly once
    more, with the card's cosigner index. *)
Theorem accepted_wizard_binds_the_card
    (n : nat) (wizard : AccountWizard KeyStore) (k : KeyStore) (w : World) :
  Empty w ->
  run wizard = Accepted ->
  has_result wizard = true ->
  get_keystore wizard = Some k ->
  exists w',
    _event_click_set_cosigner_key (S n) wizard w = (Returned tt, w') /\
    Bound w' /\
    keystore (the_state w') = Some k /\
    plainText (_key_edit (self w')) = get_master_public_key k /\
    text (_signed_by_label (self w')) =
      (if is_watching_only k then tr "External party" ++ "."
       else tr "This account" ++ ".") /\
    cosigner_updated (self w') =
      (cosigner_updated (self w) ++ [cosigner_index (the_state w)])%list.
Proof.
  intros [Hks _] Hrun Hres Hget.
  rewrite _event_click_set_cosigner_key_step, Hks, Hrun, Hres, Hget.
  rewrite _update_keystore_Some.
  eexists; split; [reflexivity | ].
  unfold Bound, after_bind, the_state; cbn. rewrite !update_same; cbn.
  repeat split. discriminate.
Qed.

(** X8.  On an Empty card, a sub-wizard that is accepted but has no result
    trips the assertion: the slot ends with [AssertionError], whatever the
    budget, and nothing was written: store and card are as before, nothing
    was emitted. *)
Theorem accepted_wizard_without_result_asserts
    (fuel : nat) (wizard : AccountWizard KeyStore) (w : World) :
  Empty w ->
  run wizard = Accepted ->
  has_result wizard = false ->
  _event_click_set_cosigner_key fuel wizard w =
  (Raised (AssertionError "accepted result-less wizard"), w).
Proof.
  intros [Hks _] Hrun Hres.
  now rewrite _event_click_set_cosigner_key_step, Hks, Hrun, Hres.
Qed.

(** X9.  A Bound card cannot be re-keyed by typing: whatever text arrives
    and whatever [textChanged] is delivered, the slot returns at once and
    store, card and emissions are as before; the parser is not consulted. *)
Theorem bound_card_ignores_text_changes (n : nat) (fuel : nat) (s : string) (w : World) :
  Bound w ->
  user_input fuel s w = (Returned tt, w) /\
  _event_text_changed (S n) w = (Returned tt, w).
Proof.
  intros [_ Hro]. split.
  - unfold user_input, bind, key_edit_isReadOnly, gets. now rewrite Hro.
  - now apply _event_text_changed_read_only.
Qed.

(** X10.  Deliveries of [textChanged] never nest deeper than two: with any
    budget of at least two, the paste slot, [_update_keystore], the click
    slot, a user edit and the constructor never exhaust the budget, and
    they end exactly as with a budget of two. *)
Theorem two_nested_deliveries_suffice (n : nat) :
  (forall w, _event_text_changed (S (S n)) w = _event_text_changed 2 w /\
             fst (_event_text_changed 2 w) <> OutOfFuel) /\
  (forall ks w, _update_keystore (S (S n)) ks w = _update_keystore 2 ks w /\
                fst (_update_keystore 2 ks w) <> OutOfFuel) /\
  (forall wizard w,
     _event_click_set_cosigner_key (S (S n)) wizard w =
     _event_click_set_cosigner_key 2 wizard w /\
     fst (_event_click_set_cosigner_key 2 wizard w) <> OutOfFuel) /\
  (forall s w, user_input (S (S n)) s w = user_input 2 s w /\
               fst (user_input 2 s w) <> OutOfFuel) /\
  (forall state h,
     CosignerCard_init (S (S n)) state h = CosignerCard_init 2 state h /\
     fst (CosignerCard_init 2 state h) <> OutOfFuel).
Proof.
  repeat apply conj; intros.
  - split; [apply _event_text_changed_fuel | apply (_event_text_changed_terminates 0)].
  - split; [apply _update_keystore_fuel | apply (_update_keystore_terminates 0)].
  - split; [apply _event_click_set_cosigner_key_fuel
           | apply (_event_click_set_cosigner_key_terminates 0)].
  - split; [apply user_input_fuel | apply (user_input_terminates 0)].
  - split; [apply _update_keystore_fuel | apply (_update_keystore_terminates 0)].
Qed.



(** X12.  An exception of the parser that is not a [ValueError] is not
    caught: the paste into an Empty card ends with that exception, the card
    is still Empty, the store is as before and nothing was emitted. *)
Theorem parser_crash_reaches_the_caller (n : nat) (s : string) (e : exn) (w : World) :
  Empty w ->
  bip32_key_from_string s = Raise e ->
  is_ValueError e = false ->
  exists w',
    user_input (S n) s w = (Raised e, w') /\
    Empty w' /\ heap w' = heap w /\
    cosigner_updated (self w') = cosigner_updated (self w).
Proof.
  intros [Hks Hro] Hparse He.
  rewrite (user_input_editable _ _ _ Hro), _event_text_changed_step.
  remember (with_self (set_key_edit {| readOnly := false; plainText := s |}) w)
    as w1 eqn:Hw1.
  assert (H1 : readOnly (_key_edit (self w1)) = false) by now subst.
  assert (H2 : plainText (_key_edit (self w1)) = s) by now subst.
  rewrite H1, H2, Hparse, He.
  exists w1. subst w1. now repeat split.
Qed.

(** ** The list and the store *)

Lemma reset_reset (st : @CosignerState KeyStore) : reset (reset st) = reset st.
Proof. reflexivity. Qed.

Lemma add_state_calls_states (n : nat) (sts : list ref) (lw : ListWorld) :
  ignored_text "" ->
  exists cards lw',
    add_state_calls (S n) sts lw = (Returned cards, lw') /\
    forall r,
      states lw' r =
      if existsb (Nat.eqb r) sts then reset (states lw r) else states lw r.
Proof.
  intros Hnot. revert lw. induction sts as [ | s rest IH]; intros lw.
  - exists [], lw. now split.
  - cbn [add_state_calls]. unfold bind. rewrite add_state_runs by assumption.
    cbv beta iota.
    match goal with |- context [add_state_calls _ rest ?x] =>
      destruct (IH x) as (cards & lw' & Hrun & Hstates)
    end.
    rewrite Hrun. eexists _, lw'. split; [reflexivity | ].
    intros r. rewrite Hstates. cbn [states existsb].
    destruct (Nat.eqb r s) eqn:Heq; cbn [orb].
    + apply Nat.eqb_eq in Heq. subst r. rewrite update_same.
      destruct (existsb (Nat.eqb s) rest); reflexivity.
    + apply Nat.eqb_neq in Heq. now rewrite update_other.
Qed.

(** X13.  After any sequence of [add_state] calls (the empty text not being
    a public key) exactly the state objects that were passed are reset, each
    to no keystore with its index kept, however often it was passed; every
    other state object of the store is as before. *)
Theorem add_state_calls_reset_the_given_states
    (n : nat) (sts : list ref) (lw : ListWorld) (r : ref) :
  ignored_text "" ->
  (In r sts ->
   states (snd (add_state_calls (S n) sts lw)) r = reset (states lw r) /\
   is_complete (states (snd (add_state_calls (S n) sts lw)) r) = false) /\
  (~ In r sts -> states (snd (add_state_calls (S n) sts lw)) r = states lw r).
Proof.
  intros Hnot.
  destruct (add_state_calls_states n sts lw Hnot) as (cards & lw' & Hrun & Hstates).
  rewrite Hrun. cbn [snd]. rewrite Hstates.
  destruct (existsb (Nat.eqb r) sts) eqn:Hex.
  - split; [now split | ]. intros Hnin. exfalso. apply Hnin.
    apply existsb_exists in Hex. destruct Hex as (x & Hin & Heq).
    apply Nat.eqb_eq in Heq. now subst.
  - split; [ | reflexivity]. intros Hin. exfalso.
    assert (Htrue : existsb (Nat.eqb r) sts = true).
    { apply existsb_exists. exists r. split; [exact Hin | apply Nat.eqb_refl]. }
    congruence.
Qed.

End MoreProperties.

(** * The further properties at work *)

Example session_ends_bound_after_five_emissions :
  keystore (the_state
    (after_events (KS := Sample.toy_api) (Env := Sample.env) 2 Sample2.session
       (snd (CosignerCard_init (KS := Sample.toy_api) (Env := Sample.env)
               2 2%nat Sample.store))))
  = Some Sample.own_keystore /\
  cosigner_updated (self
    (after_events (KS := Sample.toy_api) (Env := Sample.env) 2 Sample2.session
       (snd (CosignerCard_init (KS := Sample.toy_api) (Env := Sample.env)
               2 2%nat Sample.store))))
  = [2%Z; 2%Z; 2%Z; 2%Z; 2%Z].
Proof. split; reflexivity. Qed.

Lemma card_touches_only_its_own_state_witness :
  heap (after_events (KS := Sample.toy_api) (Env := Sample.env) 2 Sample2.session
          (snd (CosignerCard_init (KS := Sample.toy_api) (Env := Sample.env)
                  2 2%nat Sample.store))) 5%nat
  = Sample.store 5%nat.
Proof.
  apply (card_touches_only_its_own_state (KS := Sample.toy_api) (Env := Sample.env)
           2 2%nat Sample.store Sample2.session 5%nat).
  discriminate.
Defined.

Lemma is_local_is_never_set_witness :
  is_local
    (heap (after_events (KS := Sample.toy_api) (Env := Sample.env) 2 Sample2.session
             (snd (CosignerCard_init (KS := Sample.toy_api) (Env := Sample.env)
                     2 2%nat Sample.store))) 2%nat)
  = false.
Proof.
  apply (is_local_is_never_set (KS := Sample.toy_api) (Env := Sample.env)
           2 2%nat Sample.store Sample2.session 2%nat).
  reflexivity.
Defined.

Lemma reachable_cards_are_consistent_witness :
  consistent (KS := Sample.toy_api) (Env := Sample.env)
    (after_events (KS := Sample.toy_api) (Env := Sample.env) 2 Sample2.session
       (snd (CosignerCard_init (KS := Sample.toy_api) (Env := Sample.env)
               2 2%nat Sample.store))).
Proof.
  apply (reachable_cards_are_consistent (KS := Sample.toy_api) (Env := Sample.env)
           0 2%nat Sample.store Sample2.session).
  left; reflexivity.
Defined.

Lemma state_changes_are_announced_witness :
  (heap (snd (handle (KS := Sample.toy_api) (Env := Sample.env)
                2 (Paste Sample.K) Sample.empty_world)) = heap Sample.empty_world /\
   cosigner_updated
     (self (snd (handle (KS := Sample.toy_api) (Env := Sample.env)
                   2 (Paste Sample.K) Sample.empty_world)))
   = cosigner_updated (self Sample.empty_world)) \/
  cosigner_updated
    (self (snd (handle (KS := Sample.toy_api) (Env := Sample.env)
                  2 (Paste Sample.K) Sample.empty_world)))
  = [2%Z; 2%Z].
Proof.
  apply (state_changes_are_announced (KS := Sample.toy_api) (Env := Sample.env)
           0 (Paste Sample.K) Sample.empty_world).
  left; reflexivity.
Defined.

Lemma paste_then_click_round_trip_witness :
  exists w',
    (user_input (KS := Sample.toy_api) (Env := Sample.env) 2 Sample.K ;;
     _event_click_set_cosigner_key (KS := Sample.toy_api) (Env := Sample.env)
       1 Sample.cancelled_wizard)%py Sample.empty_world
    = (Returned tt, w') /\
    the_state w' = the_state Sample.empty_world /\
    _key_edit (self w') = {| readOnly := false; plainText := "" |} /\
    cosigner_updated (self w') = [2%Z; 2%Z; 2%Z].
Proof.
  destruct (paste_then_click_round_trip (KS := Sample.toy_api) (Env := Sample.env)
              0 0 Sample.K Sample.a_keystore Sample.cancelled_wizard Sample.empty_world)
    as (w' & Hrun & Hst & _ & Hself);
    [split; reflexivity | reflexivity | reflexivity | left; reflexivity | ].
  exists w'. rewrite Hself. auto.
Defined.

Lemma accepted_wizard_binds_the_card_witness :
  exists w',
    _event_click_set_cosigner_key (KS := Sample.toy_api) (Env := Sample.env)
      1 Sample.accepted_wizard Sample.empty_world = (Returned tt, w') /\
    Bound w' /\
    keystore (the_state w') = Some Sample.own_keystore /\
    text (_signed_by_label (self w')) = "This account." /\
    cosigner_updated (self w') = [2%Z; 2%Z].
Proof.
  destruct (accepted_wizard_binds_the_card (KS := Sample.toy_api) (Env := Sample.env)
              0 Sample.accepted_wizard Sample.own_keystore Sample.empty_world)
    as (w' & Hrun & Hbound & Hks & _ & Hlabel & Hlog);
    [split; reflexivity | reflexivity | reflexivity | reflexivity | ].
  exists w'. auto.
Defined.

Lemma accepted_wizard_without_result_asserts_witness :
  _event_click_set_cosigner_key (KS := Sample.toy_api) (Env := Sample.env)
    2 Sample2.resultless_wizard Sample.empty_world
  = (Raised (AssertionError "accepted result-less wizard"), Sample.empty_world).
Proof.
  apply (accepted_wizard_without_result_asserts (KS := Sample.toy_api) (Env := Sample.env)
           2 Sample2.resultless_wizard Sample.empty_world);
    [split; reflexivity | reflexivity | reflexivity].
Defined.

Lemma bound_card_ignores_text_changes_witness :
  user_input (KS := Sample.toy_api) (Env := Sample.env) 2 "xpub another key"
    Sample.bound_world = (Returned tt, Sample.bound_world) /\
  _event_text_changed (KS := Sample.toy_api) (Env := Sample.env) 1 Sample.bound_world
  = (Returned tt, Sample.bound_world).
Proof.
  apply (bound_card_ignores_text_changes (KS := Sample.toy_api) (Env := Sample.env)
           0 2 "xpub another key" Sample.bound_world).
  split; [discriminate | reflexivity].
Defined.


Lemma parser_crash_reaches_the_caller_witness :
  exists w',
    user_input (KS := Sample.toy_api) (Env := Sample2.crashing_env) 1 Sample.K
      Sample.empty_world
    = (Raised (OtherException "TypeError"), w') /\
    Empty w' /\ cosigner_updated (self w') = [2%Z].
Proof.
  destruct (parser_crash_reaches_the_caller (KS := Sample.toy_api)
              (Env := Sample2.crashing_env)
              0 Sample.K (OtherException "TypeError") Sample.empty_world)
    as (w' & Hrun & Hempty & _ & Hlog);
    [split; reflexivity | reflexivity | reflexivity | ].
  exists w'. auto.
Defined.

Lemma add_state_calls_reset_the_given_states_witness :
  is_complete (states Sample2.used_list 2%nat) = true /\
  is_complete
    (states (snd (add_state_calls (KS := Sample.toy_api) (Env := Sample.env)
                    1 [2; 0; 2]%nat Sample2.used_list)) 2%nat) = false /\
  states (snd (add_state_calls (KS := Sample.toy_api) (Env := Sample.env)
                 1 [2; 0; 2]%nat Sample2.used_list)) 5%nat
  = states Sample2.used_list 5%nat.
Proof.
  destruct (add_state_calls_reset_the_given_states (KS := Sample.toy_api)
              (Env := Sample.env) 0 [2; 0; 2]%nat Sample2.used_list 2%nat)
    as [Hin _]; [left; reflexivity | ].
  destruct (add_state_calls_reset_the_given_states (KS := Sample.toy_api)
              (Env := Sample.env) 0 [2; 0; 2]%nat Sample2.used_list 5%nat)
    as [_ Hout]; [left; reflexivity | ].
  split; [reflexivity | split].
  - apply Hin. now left.
  - apply Hout. cbn. intros [H | [H | [H | []]]]; discriminate.
Defined.
